(** * Emergency response coordinator: classification, allocation, registry

    A shallow embedding of [src/main.py] (class
    [EmergencyResponseCoordinator] and its three dataclasses) together with
    the properties of its decision engine and of its incident registry.

    Conventions of the embedding.
    - The description of an incident, the one [str] whose characters the
      code looks at, is a [text]: the list of its Unicode code points.
      [str.lower] is the lower-casing of the Unicode standard as Python
      implements it: every character is replaced by its full lower-case
      mapping, and a capital sigma by the final or the medial small sigma
      according to its context.  The mapping of the ASCII characters is
      written out; the character database beyond ASCII is not part of the
      repository and is a parameter, [UnicodeData].  [w in s] is substring
      search.
    - A [str] that is only compared, concatenated or used as a key (ids,
      statuses, labels) is a [string].
    - A Python [int] is a [Z].  The severity is computed by the source as a
      float [base + len * 0.5]; every value it takes is a multiple of one
      half, which binary floating point represents exactly, so it is
      embedded as a rational [Q] and [int(...)] as truncation towards zero.
    - A [dict] keyed by call id is a [gmap string _]; the coordinator object
      is threaded explicitly through the methods that mutate it.
    - [datetime.now().isoformat()] is an input [now] of the method that
      reads the clock.  Logging is not modelled. *)

From Stdlib Require Import ZArith NArith QArith Qminmax Qround Ascii DecimalString DecimalNat Lia.
From stdpp Require Import gmap strings list fin_maps.

Local Open Scope Z_scope.

(** ** Strings *)

(** A [str] as the sequence of its code points. *)
Abbreviation text := (list N).

(** What [str.lower] reads in the Unicode character database. *)
Class UnicodeData := {
  (** the full lower-case mapping of a code point beyond ASCII: one to
      three code points *)
  lowercase_mapping : N -> list N;
  (** the property Cased *)
  cased : N -> bool;
  (** the property Case_Ignorable *)
  case_ignorable : N -> bool
}.

Module Str.

(** The code points of an ASCII literal. *)
Definition of_string (s : string) : text :=
  map N_of_ascii (String.list_ascii_of_string s).

(** The lower-case mapping of an ASCII character: [A]-[Z] to [a]-[z]. *)
Definition ascii_lower (c : N) : N :=
  if ((65 <=? c) && (c <=? 90))%N then (c + 32)%N else c.

(** The full lower-case mapping of a character. *)
Definition to_lower_full `{!UnicodeData} (c : N) : list N :=
  if (c <? 128)%N then [ascii_lower c] else lowercase_mapping c.

(** The first character of [s] that is not case-ignorable. *)
Fixpoint skip_case_ignorable `{!UnicodeData} (s : text) : option N :=
  match s with
  | [] => None
  | c :: s' => if case_ignorable c then skip_case_ignorable s' else Some c
  end.

(** The small sigma for a capital sigma: the final form U+03C2 when a cased
    character precedes it and none follows it, case-ignorable characters
    set aside; the medial form U+03C3 otherwise.  [before] is the text
    before the sigma, nearest character first; [after] the text after it. *)
Definition handle_capital_sigma `{!UnicodeData} (before after : text) : N :=
  let final_sigma :=
    match skip_case_ignorable before with
    | Some c => cased c
    | None => false
    end in
  let final_sigma :=
    if final_sigma then
      match skip_case_ignorable after with
      | Some c => negb (cased c)
      | None => true
      end
    else false in
  if final_sigma then 0x3C2%N else 0x3C3%N.

(** The lower-casing of the character [c] standing between [before] and
    [after]. *)
Definition lower_char `{!UnicodeData} (before : text) (c : N) (after : text)
  : list N :=
  if (c =? 0x3A3)%N then [handle_capital_sigma before after]
  else to_lower_full c.

(** The lower-casing of [s], which stands after [before]. *)
Fixpoint lower_from `{!UnicodeData} (before s : text) : text :=
  match s with
  | [] => []
  | c :: after => lower_char before c after ++ lower_from (c :: before) after
  end.

(** [s.lower()] *)
Definition lower `{!UnicodeData} (s : text) : text := lower_from [] s.

(** [s.startswith(w)] *)
Fixpoint starts_with (w s : text) : bool :=
  match w, s with
  | [], _ => true
  | _ :: _, [] => false
  | a :: w', b :: s' => if decide (a = b) then starts_with w' s' else false
  end.

(** [w in s]: [w] occurs in [s] at some offset. *)
Fixpoint contains (w s : text) : bool :=
  starts_with w s ||
  match s with
  | [] => false
  | _ :: s' => contains w s'
  end.

(** [str(i)] for a non-negative index, as an f-string renders it. *)
Definition of_nat (i : nat) : string := NilEmpty.string_of_uint (Nat.to_uint i).

(** [any(w in s for w in words)] *)
Definition any_in (words : list text) (s : text) : bool :=
  existsb (fun word => contains word s) words.

End Str.

(** An excerpt of the character database, for the examples only: the
    lower-case mappings of the Latin-1 and the Greek capitals, of the dotted
    capital I and of the Kelvin sign; the Latin-1 and Greek letters, these
    two characters and the ASCII letters as cased characters; the
    apostrophe, the full stop, the colon and the combining marks U+0300 to
    U+036F as case-ignorable characters.  No property below depends on
    it: they hold for every character database. *)
Definition sample_unicode_data : UnicodeData :=
  {| lowercase_mapping c :=
       if (c =? 0x130)%N then [0x69; 0x307]%N
       else if (c =? 0x212A)%N then [0x6B]%N
       else if ((0xC0 <=? c) && (c <=? 0xDE) && negb (c =? 0xD7))%N
            then [c + 32]%N
       else if ((0x391 <=? c) && (c <=? 0x3AB) && negb (c =? 0x3A2))%N
            then [c + 32]%N
       else [c];
     cased c :=
       ((65 <=? c) && (c <=? 90) || (97 <=? c) && (c <=? 122)
        || (0xC0 <=? c) && (c <=? 0xFF) && negb (c =? 0xD7) && negb (c =? 0xF7)
        || (0x391 <=? c) && (c <=? 0x3C9) && negb (c =? 0x3A2)
        || (c =? 0x130) || (c =? 0x212A))%N;
     case_ignorable c :=
       ((c =? 0x27) || (c =? 0x2E) || (c =? 0x3A)
        || (0x300 <=? c) && (c <=? 0x36F))%N |}.

(** ** Numbers *)

(** [int(x)] of a float: truncation towards zero. *)
Definition int (x : Q) : Z := Z.quot (Qnum x) (Zpos (Qden x)).

(** [x >= k], the source's test of a severity against an integer literal. *)
Definition ge_int (x : Q) (k : Z) : bool := Qle_bool (inject_Z k) x.

(** ** Data model *)

Record EmergencyIncident := {
  call_id : string;
  timestamp : string;
  location : string;
  description : text;
  severity_indicators : list string;
  caller_contact : option string
}.

Record IncidentAssessment := {
  incident_id : string;
  incident_type : string;
  severity_score : Z;
  medical_priority : string;
  recommended_response : string;
  estimated_arrival_time : string
}.

Record ResourceAllocation := {
  allocation_id : string;
  ambulances_required : Z;
  fire_trucks_required : Z;
  personnel_required : Z;
  estimated_cost : Z;
  dispatch_order : list string
}.

(** ** Assessment *)

Definition cardiac_words : list text :=
  map Str.of_string ["cardiac"; "heart"; "chest pain"].
Definition trauma_words : list text :=
  map Str.of_string ["trauma"; "accident"; "hit"; "crash"].
Definition fire_words : list text :=
  map Str.of_string ["fire"; "smoke"; "burn"].

(** The [if]/[elif] chain of [_assess_incident]: type and base severity. *)
Definition classify (description_lower : text) : string * Z :=
  if Str.any_in cardiac_words description_lower then ("CARDIAC", 8)
  else if Str.any_in trauma_words description_lower then ("TRAUMA", 7)
  else if Str.any_in fire_words description_lower then ("FIRE", 8)
  else ("MEDICAL", 5).

(** [base_severity + len(indicators) * 0.5] *)
Definition raw_severity (base_severity : Z) (indicators : list string) : Q :=
  (inject_Z base_severity + inject_Z (Z.of_nat (length indicators)) * (1 # 2))%Q.

(** [min(10, max(1, severity))] *)
Definition clamp (severity : Q) : Q := Qmin (inject_Z 10) (Qmax (inject_Z 1) severity).

(** The priority bands, read on the clamped severity as the source does. *)
Definition priority_of (severity : Q) : string :=
  if ge_int severity 8 then "CRITICAL"
  else if ge_int severity 6 then "HIGH"
  else if ge_int severity 4 then "MEDIUM"
  else "LOW".

Definition _assess_incident `{!UnicodeData} (incident : EmergencyIncident)
  : IncidentAssessment :=
  let description_lower := Str.lower (description incident) in
  let '(incident_type, base_severity) := classify description_lower in
  let severity := raw_severity base_severity (severity_indicators incident) in
  let severity := clamp severity in
  let priority := priority_of severity in
  {| incident_id := call_id incident;
     incident_type := incident_type;
     severity_score := int severity;
     medical_priority := priority;
     recommended_response :=
       "Deploy specialized " +:+ incident_type +:+ " response team";
     estimated_arrival_time := "5-8 minutes" |}.

(** ** Allocation *)

Definition _allocate_resources (assessment : IncidentAssessment) : ResourceAllocation :=
  let '(ambulances, fire_trucks, personnel) :=
    if bool_decide (incident_type assessment = "CARDIAC") then
      (2, 0, 6)
    else if bool_decide (incident_type assessment = "TRAUMA") then
      (if 7 <=? severity_score assessment then 2 else 1,
       if 8 <=? severity_score assessment then 1 else 0,
       if 8 <=? severity_score assessment then 8 else 4)
    else if bool_decide (incident_type assessment = "FIRE") then
      (2, if 8 <=? severity_score assessment then 3 else 2, 12)
    else
      (1, 0, 2) in
  {| allocation_id := "ALLOC-" +:+ incident_id assessment;
     ambulances_required := ambulances;
     fire_trucks_required := fire_trucks;
     personnel_required := personnel;
     estimated_cost := ambulances * 500 + fire_trucks * 1000 + personnel * 100;
     dispatch_order :=
       map (fun i => "Unit-" +:+ Str.of_nat i)
           (seq 0 (Z.to_nat (ambulances + fire_trucks))) |}.

(** ** Registry and coordinator *)

(** The value stored under a call id in [active_incidents]. *)
Record Entry := {
  e_incident : EmergencyIncident;
  e_assessment : IncidentAssessment;
  e_resources : ResourceAllocation;
  e_status : string;
  e_timestamp : string
}.

(** The dictionary returned by [process_emergency_call]. *)
Record Response := {
  r_call_id : string;
  r_incident_type : string;
  r_severity : Z;
  r_priority : string;
  r_dispatch_plan : list string;
  r_estimated_arrival : string;
  r_status : string
}.

(** The coordinator object.  [session_memory] is created empty and never
    read or written afterwards; it is left out. *)
Record EmergencyResponseCoordinator := {
  project_id : string;
  api_key : option string;
  active_incidents : gmap string Entry
}.

Definition __init__ (project_id : string) (api_key : option string)
  : EmergencyResponseCoordinator :=
  {| project_id := project_id; api_key := api_key; active_incidents := ∅ |}.

Definition with_active_incidents (self : EmergencyResponseCoordinator)
    (m : gmap string Entry) : EmergencyResponseCoordinator :=
  {| project_id := project_id self; api_key := api_key self; active_incidents := m |}.

(** [entry['status'] = status] *)
Definition with_status (e : Entry) (status : string) : Entry :=
  {| e_incident := e_incident e; e_assessment := e_assessment e;
     e_resources := e_resources e; e_status := status;
     e_timestamp := e_timestamp e |}.

Definition process_emergency_call `{!UnicodeData}
    (self : EmergencyResponseCoordinator)
    (now : string) (incident : EmergencyIncident)
  : Response * EmergencyResponseCoordinator :=
  let assessment := _assess_incident incident in
  let resources := _allocate_resources assessment in
  let self :=
    with_active_incidents self
      (<[call_id incident :=
           {| e_incident := incident; e_assessment := assessment;
              e_resources := resources; e_status := "DISPATCHED";
              e_timestamp := now |}]> (active_incidents self)) in
  let response :=
    {| r_call_id := call_id incident;
       r_incident_type := incident_type assessment;
       r_severity := severity_score assessment;
       r_priority := medical_priority assessment;
       r_dispatch_plan := dispatch_order resources;
       r_estimated_arrival := estimated_arrival_time assessment;
       r_status := "DISPATCHED" |} in
  (response, self).

Definition get_incident_status (self : EmergencyResponseCoordinator)
    (call_id : string) : option Entry :=
  active_incidents self !! call_id.

Definition update_incident_status (self : EmergencyResponseCoordinator)
    (call_id status : string) : bool * EmergencyResponseCoordinator :=
  match active_incidents self !! call_id with
  | Some e =>
      (true,
       with_active_incidents self
         (<[call_id := with_status e status]> (active_incidents self)))
  | None => (false, self)
  end.

(** The demonstration call of [main]. *)
Definition cardiac_incident (now : string) : EmergencyIncident :=
  {| call_id := "911-2024-001";
     timestamp := now;
     location := "123 Main St, Hospital District";
     description :=
       Str.of_string "Patient experiencing severe chest pain, unresponsive";
     severity_indicators := ["chest pain"; "shortness of breath"; "unresponsive"];
     caller_contact := Some "555-0123" |}.

(** ** Vocabulary of the properties *)

(** [w] occurs in [s]: some text before it, some text after it. *)
Definition occurs (w s : text) : Prop :=
  exists pre suf, s = pre ++ w ++ suf.

(** Some word of the group occurs in the text. *)
Definition group_hit (words : list text) (d : text) : Prop :=
  exists w, w ∈ words /\ occurs w d.

(** The classification rule in words: the groups are tried in the order
    cardiac, trauma, fire; the first group with a hit decides, and a text
    with no hit at all is a medical call. *)
Inductive first_match (d : text) : string -> Prop :=
  | fm_cardiac :
      group_hit cardiac_words d -> first_match d "CARDIAC"
  | fm_trauma :
      ~ group_hit cardiac_words d -> group_hit trauma_words d ->
      first_match d "TRAUMA"
  | fm_fire :
      ~ group_hit cardiac_words d -> ~ group_hit trauma_words d ->
      group_hit fire_words d -> first_match d "FIRE"
  | fm_medical :
      ~ group_hit cardiac_words d -> ~ group_hit trauma_words d ->
      ~ group_hit fire_words d -> first_match d "MEDICAL".

(** The band table of the specification, on the stored integer score. *)
Definition priority_band (score : Z) : string :=
  if 8 <=? score then "CRITICAL"
  else if 6 <=? score then "HIGH"
  else if 4 <=? score then "MEDIUM"
  else "LOW".

(** [d] is the character [c], or [c] is a small ASCII letter and [d] its
    capital. *)
Definition same_letter (c d : N) : Prop :=
  d = c \/ ((97 <= c)%N /\ (c <= 122)%N /\ d = (c - 32)%N).

(** [v] spells the word [w] in some mix of small and capital letters. *)
Definition spelling (w v : text) : Prop := Forall2 same_letter w v.

(** The text has ASCII characters only. *)
Definition is_ascii (s : text) : Prop := Forall (fun c => (c < 128)%N) s.

(** The label list of [n] units. *)
Definition unit_labels (n : nat) : list string :=
  map (fun i => "Unit-" +:+ Str.of_nat i) (seq 0 n).

(** ** Dictionaries of the dataclasses *)

(** The values [dataclasses.asdict] produces for the three dataclasses:
    strings ([VText] for the one kept as code points), integers, [None],
    lists and dictionaries in insertion order. *)
#[warnings="-register-all"]
Inductive pyval :=
  | VNone
  | VStr (s : string)
  | VText (t : text)
  | VInt (n : Z)
  | VList (l : list pyval)
  | VDict (items : list (string * pyval)).

(** [EmergencyIncident.to_dict] *)
Definition EmergencyIncident_to_dict (self : EmergencyIncident) : pyval :=
  VDict [("call_id", VStr (call_id self));
         ("timestamp", VStr (timestamp self));
         ("location", VStr (location self));
         ("description", VText (description self));
         ("severity_indicators", VList (map VStr (severity_indicators self)));
         ("caller_contact",
          match caller_contact self with Some c => VStr c | None => VNone end)].

(** [IncidentAssessment.to_dict] *)
Definition IncidentAssessment_to_dict (self : IncidentAssessment) : pyval :=
  VDict [("incident_id", VStr (incident_id self));
         ("incident_type", VStr (incident_type self));
         ("severity_score", VInt (severity_score self));
         ("medical_priority", VStr (medical_priority self));
         ("recommended_response", VStr (recommended_response self));
         ("estimated_arrival_time", VStr (estimated_arrival_time self))].

(** [ResourceAllocation.to_dict] *)
Definition ResourceAllocation_to_dict (self : ResourceAllocation) : pyval :=
  VDict [("allocation_id", VStr (allocation_id self));
         ("ambulances_required", VInt (ambulances_required self));
         ("fire_trucks_required", VInt (fire_trucks_required self));
         ("personnel_required", VInt (personnel_required self));
         ("estimated_cost", VInt (estimated_cost self));
         ("dispatch_order", VList (map VStr (dispatch_order self)))].

(** The dictionary literal that [process_emergency_call] stores, as a view
    of an [Entry]. *)
Definition Entry_to_dict (e : Entry) : pyval :=
  VDict [("incident", EmergencyIncident_to_dict (e_incident e));
         ("assessment", IncidentAssessment_to_dict (e_assessment e));
         ("resources", ResourceAllocation_to_dict (e_resources e));
         ("status", VStr (e_status e));
         ("timestamp", VStr (e_timestamp e))].

(** ** Clients of the coordinator *)

(** The two calls of the interface that change the coordinator. *)
Inductive Call :=
  | Process (now : string) (incident : EmergencyIncident)
  | Update (id status : string).

Definition step `{!UnicodeData} (self : EmergencyResponseCoordinator)
    (c : Call) : EmergencyResponseCoordinator :=
  match c with
  | Process now incident => snd (process_emergency_call self now incident)
  | Update id status => snd (update_incident_status self id status)
  end.

(** A client session: the calls are made one after the other. *)
Definition run `{!UnicodeData} (calls : list Call)
    (self : EmergencyResponseCoordinator) : EmergencyResponseCoordinator :=
  foldl step self calls.

(** The call id a call works on. *)
Definition target (c : Call) : string :=
  match c with
  | Process _ incident => call_id incident
  | Update id _ => id
  end.

(** The call [c] made when the clock reads [now]: a process call stores the
    reading, an update does not look at the clock. *)
Definition at_time (now : string) (c : Call) : Call :=
  match c with
  | Process _ incident => Process now incident
  | Update id status => Update id status
  end.

(** What the call [c], made at the reading [now], leaves at the call id it
    works on, where [old] was before: a process call writes a new entry, an
    update rewrites the status of the entry that is there. *)
Definition stored `{!UnicodeData} (old : option Entry) (now : string)
    (c : Call) : option Entry :=
  match c with
  | Process _ incident =>
      Some {| e_incident := incident;
              e_assessment := _assess_incident incident;
              e_resources := _allocate_resources (_assess_incident incident);
              e_status := "DISPATCHED"; e_timestamp := now |}
  | Update _ status => (fun e => with_status e status) <$> old
  end.

(** An entry without the clock reading it was stored with. *)
Definition untimed (e : Entry) : Entry :=
  {| e_incident := e_incident e; e_assessment := e_assessment e;
     e_resources := e_resources e; e_status := e_status e;
     e_timestamp := "" |}.

(** The call ids a session has processed. *)
Fixpoint processed_ids (calls : list Call) : gset string :=
  match calls with
  | [] => ∅
  | Process _ incident :: calls => {[call_id incident]} ∪ processed_ids calls
  | Update _ _ :: calls => processed_ids calls
  end.


(** An entry is the one its incident produces: stored under the incident's
    call id, with the assessment and the allocation computed from it. *)
Definition entry_consistent `{!UnicodeData} (id : string) (e : Entry) : Prop :=
  call_id (e_incident e) = id
  /\ e_assessment e = _assess_incident (e_incident e)
  /\ e_resources e = _allocate_resources (e_assessment e).

Definition registry_consistent `{!UnicodeData}
    (self : EmergencyResponseCoordinator) : Prop :=
  forall id e, active_incidents self !! id = Some e -> entry_consistent id e.

(** * Properties *)

Section Properties.

Context {unicode_data : UnicodeData}.

(** ** Substring search *)

Lemma starts_with_spec (w s : text) :
  Str.starts_with w s = true <-> exists suf, s = w ++ suf.
Proof.
  revert s. induction w as [|a w IH]; intros s.
  - split; [intros _; exists s; reflexivity | reflexivity].
  - destruct s as [|b s]; simpl.
    + split; [discriminate | intros [suf H]; discriminate H].
    + destruct (decide (a = b)) as [->|Hne].
      * rewrite IH. split; intros [suf H]; exists suf.
        -- now f_equal.
        -- now inversion H.
      * split; [discriminate|].
        intros [suf H]. inversion H. congruence.
Qed.

Lemma contains_spec (w s : text) : Str.contains w s = true <-> occurs w s.
Proof.
  induction s as [|b s IH].
  - simpl. rewrite orb_false_r, starts_with_spec. split.
    + intros [suf H]. exists [], suf. exact H.
    + intros [[|c pre] [suf H]]; [exists suf; exact H | discriminate H].
  - cbn [Str.contains]. rewrite orb_true_iff, IH, starts_with_spec. split.
    + intros [[suf H] | (pre & suf & H)].
      * exists [], suf. exact H.
      * exists (b :: pre), suf. simpl. now f_equal.
    + intros ([|c pre] & suf & H).
      * left. exists suf. exact H.
      * right. exists pre, suf. simpl in H. now inversion H.
Qed.

Lemma any_in_spec (words : list text) (s : text) :
  Str.any_in words s = true <-> group_hit words s.
Proof.
  unfold Str.any_in, group_hit. rewrite existsb_exists. split.
  - intros (w & Hin & Hc). exists w.
    split; [now apply list_elem_of_In | now apply contains_spec].
  - intros (w & Hin & Hc). exists w.
    split; [now apply list_elem_of_In | now apply contains_spec].
Qed.

(** ** Lower-casing *)

(** An ASCII character is lower-cased by the ASCII mapping, whatever
    surrounds it. *)
Lemma lower_char_ascii (before : text) (c : N) (after : text) :
  (c < 128)%N -> Str.lower_char before c after = [Str.ascii_lower c].
Proof.
  intros Hc. unfold Str.lower_char, Str.to_lower_full.
  destruct (N.eqb_spec c 0x3A3) as [->|_]; [discriminate Hc|].
  now rewrite (proj2 (N.ltb_lt c 128) Hc).
Qed.

(** Every character is lower-cased where it stands: the lower-casing of a
    text is made of the pieces of its parts. *)
Lemma lower_from_app (before s t : text) :
  exists x, Str.lower_from before (s ++ t)
            = x ++ Str.lower_from (rev s ++ before) t.
Proof.
  revert before. induction s as [|c s IH]; intros before.
  - exists []. reflexivity.
  - destruct (IH (c :: before)) as [x Hx].
    exists (Str.lower_char before c (s ++ t) ++ x).
    simpl. rewrite Hx, <- !app_assoc. reflexivity.
Qed.

Lemma lower_from_ascii (before s t : text) :
  is_ascii s ->
  Str.lower_from before (s ++ t)
  = map Str.ascii_lower s ++ Str.lower_from (rev s ++ before) t.
Proof.
  intros Hs. revert before. induction Hs as [|c s Hc Hs IH]; intros before.
  - reflexivity.
  - simpl. rewrite lower_char_ascii by exact Hc.
    rewrite IH, <- !app_assoc. reflexivity.
Qed.

(** On ASCII text [str.lower] is the ASCII mapping, character by
    character. *)
Lemma lower_ascii (s : text) : is_ascii s -> Str.lower s = map Str.ascii_lower s.
Proof.
  intros Hs. unfold Str.lower.
  rewrite <- (app_nil_r s) at 1. rewrite lower_from_ascii by exact Hs.
  simpl. apply app_nil_r.
Qed.

(** An ASCII spelling [v] of the word [w] is still found after
    lower-casing, whatever text surrounds it. *)
Lemma occurs_lower (w v pre suf : text) :
  is_ascii v -> map Str.ascii_lower v = w ->
  occurs w (Str.lower (pre ++ v ++ suf)).
Proof.
  intros Hv Hw. unfold Str.lower.
  destruct (lower_from_app [] pre (v ++ suf)) as [x ->].
  rewrite lower_from_ascii, Hw by exact Hv.
  now exists x, (Str.lower_from (rev v ++ rev pre ++ []) suf).
Qed.

(** The keywords are ASCII words in small letters. *)
Lemma keyword_lower (w : text) :
  w ∈ cardiac_words ++ trauma_words ++ fire_words ->
  is_ascii w /\ map Str.ascii_lower w = w.
Proof.
  unfold cardiac_words, trauma_words, fire_words. simpl.
  rewrite !elem_of_cons, elem_of_nil.
  intros H. repeat destruct H as [H|H]; try contradiction; subst w;
    (split; [repeat constructor | reflexivity]).
Qed.

Lemma same_letter_lower (c d : N) :
  (c < 128)%N -> Str.ascii_lower c = c -> same_letter c d ->
  (d < 128)%N /\ Str.ascii_lower d = c.
Proof.
  unfold Str.ascii_lower. intros Hc Hl [->|(H1 & H2 & ->)].
  - split; [exact Hc | exact Hl].
  - split; [lia|].
    destruct (N.leb_spec 65 (c - 32)); destruct (N.leb_spec (c - 32) 90);
      simpl; lia.
Qed.

Lemma spelling_lower (w v : text) :
  is_ascii w -> map Str.ascii_lower w = w -> spelling w v ->
  is_ascii v /\ map Str.ascii_lower v = w.
Proof.
  intros Hw Hl Hs. induction Hs as [|c d w v Hcd Hs IH].
  - split; [constructor | reflexivity].
  - inversion Hw as [|? ? Hc Hw']; subst. simpl in Hl.
    injection Hl as Hlc Hlw.
    destruct (IH Hw' Hlw) as [Hv Hm].
    destruct (same_letter_lower c d Hc Hlc Hcd) as [Hd Hld].
    split; [now constructor | simpl; now rewrite Hld, Hm].
Qed.

(** ** Classification: first match wins *)

Lemma first_match_functional d t1 t2 :
  first_match d t1 -> first_match d t2 -> t1 = t2.
Proof. intros H1 H2. inversion H1; inversion H2; subst; tauto. Qed.

Lemma classify_first_match d : first_match d (fst (classify d)).
Proof.
  unfold classify.
  destruct (Str.any_in cardiac_words d) eqn:Hc.
  { apply fm_cardiac. now apply any_in_spec. }
  assert (~ group_hit cardiac_words d) as Nc.
  { intros H. apply any_in_spec in H. congruence. }
  destruct (Str.any_in trauma_words d) eqn:Ht.
  { apply fm_trauma; [exact Nc | now apply any_in_spec]. }
  assert (~ group_hit trauma_words d) as Nt.
  { intros H. apply any_in_spec in H. congruence. }
  destruct (Str.any_in fire_words d) eqn:Hf.
  { apply fm_fire; [exact Nc | exact Nt | now apply any_in_spec]. }
  apply fm_medical; [exact Nc | exact Nt |].
  intros H. apply any_in_spec in H. congruence.
Qed.

Lemma assess_incident_type incident :
  incident_type (_assess_incident incident)
  = fst (classify (Str.lower (description incident))).
Proof. unfold _assess_incident. now destruct (classify _). Qed.

(** A spelling of a keyword anywhere in the description occurs, in small
    letters, in the lower-cased description. *)
Lemma spelled_occurs (w v pre suf : text) :
  w ∈ cardiac_words ++ trauma_words ++ fire_words -> spelling w v ->
  occurs w (Str.lower (pre ++ v ++ suf)).
Proof.
  intros Hw Hs.
  destruct (keyword_lower w Hw) as [Ha Hl].
  destruct (spelling_lower w v Ha Hl Hs) as [Hva Hvl].
  now apply occurs_lower.
Qed.

Lemma cardiac_hit (w v pre suf : text) :
  w ∈ cardiac_words -> spelling w v ->
  group_hit cardiac_words (Str.lower (pre ++ v ++ suf)).
Proof.
  intros Hw Hs. exists w. split; [exact Hw|].
  apply spelled_occurs; [|exact Hs]. apply elem_of_app. now left.
Qed.

Lemma spelling_refl (w : text) : spelling w w.
Proof. induction w; constructor; [now left | assumption]. Qed.

(** C2: the incident type is the one of the first keyword group, in the
    order cardiac, trauma, fire, that has a word occurring in the lower-cased
    description, and MEDICAL when none has; a cardiac word anywhere in the
    description gives CARDIAC whatever surrounds it; and the description
    "cardiac event during a fire" is classified CARDIAC. *)
Theorem C2_first_match_wins (incident : EmergencyIncident) :
  first_match (Str.lower (description incident))
              (incident_type (_assess_incident incident))
  /\ (forall w pre suf,
        w ∈ cardiac_words ->
        description incident = pre ++ w ++ suf ->
        incident_type (_assess_incident incident) = "CARDIAC")
  /\ (description incident = Str.of_string "cardiac event during a fire" ->
      incident_type (_assess_incident incident) = "CARDIAC").
Proof.
  rewrite assess_incident_type. split; [apply classify_first_match|]. split.
  - intros w pre suf Hw Hd.
    apply (first_match_functional (Str.lower (description incident)));
      [apply classify_first_match|].
    apply fm_cardiac. rewrite Hd.
    apply (cardiac_hit w w); [exact Hw | apply spelling_refl].
  - intros ->. reflexivity.
Qed.
(** ** Severity and priority *)

Section Severity.

Variable base : Z.
Variable indicators : list string.

Let n : Z := Z.of_nat (length indicators).

(** The raw severity counts halves: [2 * base + n] of them. *)
Lemma raw_severity_num : Qnum (raw_severity base indicators) = 2 * base + n.
Proof. unfold raw_severity, n. simpl. lia. Qed.

Lemma raw_severity_den : Qden (raw_severity base indicators) = 2%positive.
Proof. reflexivity. Qed.

End Severity.

(** [clamp] returns one of its three candidates, unchanged. *)
Lemma clamp_cases (x : Q) :
  (x <= inject_Z 1 /\ clamp x = inject_Z 1)%Q
  \/ (inject_Z 1 < x /\ x < inject_Z 10 /\ clamp x = x)%Q
  \/ (inject_Z 10 <= x /\ clamp x = inject_Z 10)%Q.
Proof.
  unfold clamp, Qmin, Qmax, GenericMinMax.gmin, GenericMinMax.gmax.
  destruct (inject_Z 1 ?= x)%Q eqn:H1.
  - left. apply Qeq_alt in H1. split; [rewrite <- H1; apply Qle_refl | reflexivity].
  - apply Qlt_alt in H1.
    destruct (inject_Z 10 ?= x)%Q eqn:H10.
    + right; right. apply Qeq_alt in H10.
      split; [rewrite <- H10; apply Qle_refl | reflexivity].
    + right; right. apply Qlt_alt in H10.
      split; [now apply Qlt_le_weak | reflexivity].
    + right; left. apply Qgt_alt in H10. auto.
  - left. apply Qgt_alt in H1. split; [now apply Qlt_le_weak | reflexivity].
Qed.

(** Comparing with a positive integer bound sees only the integer part. *)
Lemma ge_int_int (x : Q) (k : Z) : 0 < k -> ge_int x k = (k <=? int x).
Proof.
  intros Hk. unfold ge_int, int, Qle_bool. destruct x as [p q]. simpl.
  rewrite Z.mul_1_r.
  destruct (Z.le_gt_cases 0 p) as [Hp|Hp].
  - rewrite Z.quot_div_nonneg by lia.
    apply eq_true_iff_eq. rewrite !Z.leb_le. split; intros H.
    + apply Z.div_le_lower_bound; lia.
    + pose proof (Z.mul_div_le p (Z.pos q) ltac:(lia)). nia.
  - assert (p ÷ Z.pos q <= 0) by (apply Z.quot_le_upper_bound; lia).
    transitivity false; [|symmetry]; apply Z.leb_gt; nia.
Qed.

Lemma priority_of_int (x : Q) : priority_of x = priority_band (int x).
Proof.
  unfold priority_of, priority_band. now rewrite !ge_int_int by lia.
Qed.

(** The fields of an assessment, with the [let] of the source opened. *)
Lemma assess_severity_score incident :
  severity_score (_assess_incident incident)
  = int (clamp (raw_severity (snd (classify (Str.lower (description incident))))
                             (severity_indicators incident))).
Proof. unfold _assess_incident. now destruct (classify _). Qed.

Lemma assess_medical_priority incident :
  medical_priority (_assess_incident incident)
  = priority_of
      (clamp (raw_severity (snd (classify (Str.lower (description incident))))
                           (severity_indicators incident))).
Proof. unfold _assess_incident. now destruct (classify _). Qed.

(** C1: the priority stored in an assessment is the band of the stored
    (truncated) severity score: at least 8 CRITICAL, at least 6 HIGH, at
    least 4 MEDIUM, otherwise LOW; reading the bands on the clamped value
    before truncation, as the code does, gives the same priority. *)
Theorem C1_priority_is_band_of_score (incident : EmergencyIncident) :
  medical_priority (_assess_incident incident)
  = priority_band (severity_score (_assess_incident incident))
  /\ (forall clamped : Q, priority_of clamped = priority_band (int clamped)).
Proof.
  split; [|apply priority_of_int].
  rewrite assess_medical_priority, assess_severity_score.
  apply priority_of_int.
Qed.

(** The base severity is one of the three constants of the chain. *)
Lemma classify_base d : snd (classify d) ∈ [8; 7; 5].
Proof.
  unfold classify. rewrite !elem_of_cons.
  repeat match goal with |- context [if ?b then _ else _] => destruct b end;
    simpl; auto.
Qed.

Lemma classify_base_bounds d : 5 <= snd (classify d) <= 8.
Proof.
  pose proof (classify_base d) as H. rewrite !elem_of_cons, elem_of_nil in H. lia.
Qed.

(** On a non-negative value truncation is the floor. *)
Lemma int_floor (x : Q) : 0 <= Qnum x -> int x = Qfloor x.
Proof. destruct x as [p q]. simpl. intros Hp. apply Z.quot_div_nonneg; lia. Qed.

Lemma int_sandwich (x : Q) :
  0 <= Qnum x -> (inject_Z (int x) <= x /\ x < inject_Z (int x + 1))%Q.
Proof.
  intros Hp. rewrite int_floor by exact Hp.
  split; [apply Qfloor_le | apply Qlt_floor].
Qed.

Lemma clamp_num_nonneg (x : Q) : 0 <= Qnum (clamp x).
Proof.
  destruct (clamp_cases x) as [[_ ->]|[(H1 & _ & ->)|[_ ->]]]; simpl; try lia.
  unfold Qlt in H1. simpl in H1. lia.
Qed.

(** The stored score in integers: whole part of [base + n/2], capped at 10. *)
Lemma int_clamp_raw (base : Z) (indicators : list string) :
  1 <= base ->
  int (clamp (raw_severity base indicators))
  = Z.min 10 (base + Z.of_nat (length indicators) / 2).
Proof.
  intros Hb.
  pose proof (raw_severity_num base indicators) as Hn.
  pose proof (raw_severity_den base indicators) as Hd.
  set (n := Z.of_nat (length indicators)) in *.
  assert (0 <= n) as Hn0 by (unfold n; lia).
  assert ((2 * base + n) / 2 = base + n / 2) as Hdiv.
  { rewrite Z.add_comm, Z.mul_comm, Z.div_add by lia. lia. }
  destruct (clamp_cases (raw_severity base indicators))
    as [[H1 ->]|[(H1 & H10 & ->)|[H10 ->]]].
  - unfold Qle in H1. rewrite Hn, Hd in H1. simpl in H1.
    assert (base = 1 /\ n = 0) as [-> ->] by lia.
    reflexivity.
  - unfold Qlt in H10. rewrite Hn, Hd in H10. simpl in H10.
    unfold int. rewrite Hn, Hd, Z.quot_div_nonneg, Hdiv by lia.
    assert ((2 * base + n) / 2 < 10) by (apply Z.div_lt_upper_bound; lia).
    lia.
  - unfold Qle in H10. rewrite Hn, Hd in H10. simpl in H10.
    assert (10 <= (2 * base + n) / 2) by (apply Z.div_le_lower_bound; lia).
    change (int (inject_Z 10)) with 10. lia.
Qed.

(** C3: whatever the description and however many indicators, the stored
    severity score is the base severity plus one half per indicator, clamped
    to [1,10] and truncated: it is the largest integer not above the clamped
    value (so 5.5 is stored as 5), in integers the whole part of
    base + count/2 capped at 10, and it lies in [1,10]. *)
Theorem C3_severity_score (incident : EmergencyIncident) :
  let base := snd (classify (Str.lower (description incident))) in
  let count := Z.of_nat (length (severity_indicators incident)) in
  let clamped := clamp (raw_severity base (severity_indicators incident)) in
  let score := severity_score (_assess_incident incident) in
  (raw_severity base (severity_indicators incident)
     == inject_Z base + (1 # 2) * inject_Z count)%Q
  /\ (clamped == Qmin (inject_Z 10) (Qmax (inject_Z 1)
                   (inject_Z base + (1 # 2) * inject_Z count)))%Q
  /\ (inject_Z score <= clamped /\ clamped < inject_Z (score + 1))%Q
  /\ score = Z.min 10 (base + count / 2)
  /\ 1 <= score <= 10.
Proof.
  intros base count clamped score.
  assert (score = int clamped) as Hs by apply assess_severity_score.
  pose proof (classify_base_bounds (Str.lower (description incident))) as Hb.
  fold base in Hb.
  assert (score = Z.min 10 (base + count / 2)) as Hc.
  { rewrite Hs. apply int_clamp_raw. lia. }
  assert (0 <= count / 2) by (apply Z.div_pos; unfold count; lia).
  split; [unfold raw_severity; fold count; ring|].
  split; [unfold clamped, clamp, raw_severity; fold count;
          now rewrite (Qmult_comm (inject_Z count))|].
  split; [rewrite Hs; apply int_sandwich, clamp_num_nonneg|].
  split; [exact Hc | lia].
Qed.

(** Truncation, not rounding: 5 + 0.5 is stored as 5, 7 + 1.5 as 8. *)
Example severity_truncates :
  severity_score (_assess_incident
    {| call_id := "a"; timestamp := ""; location := ""; description := Str.of_string "fell ill";
       severity_indicators := ["pale"]; caller_contact := None |}) = 5
  /\ severity_score (_assess_incident
    {| call_id := "b"; timestamp := ""; location := ""; description := Str.of_string "Car CRASH";
       severity_indicators := ["a"; "b"; "c"]; caller_contact := None |}) = 8.
Proof. split; reflexivity. Qed.

(** C9: the assessed severity score is at least 5, the lower clamp bound is
    never the one that applies, and the priority is never LOW. *)
Theorem C9_score_at_least_5_never_low (incident : EmergencyIncident) :
  let base := snd (classify (Str.lower (description incident))) in
  5 <= base
  /\ (inject_Z base <= raw_severity base (severity_indicators incident))%Q
  /\ Qmax (inject_Z 1) (raw_severity base (severity_indicators incident))
     = raw_severity base (severity_indicators incident)
  /\ 5 <= severity_score (_assess_incident incident)
  /\ medical_priority (_assess_incident incident) <> "LOW".
Proof.
  intros base.
  pose proof (classify_base_bounds (Str.lower (description incident))) as Hb.
  fold base in Hb.
  pose proof (raw_severity_num base (severity_indicators incident)) as Hn.
  pose proof (raw_severity_den base (severity_indicators incident)) as Hd.
  assert (0 <= Z.of_nat (length (severity_indicators incident)) / 2)
    by (apply Z.div_pos; lia).
  assert (5 <= severity_score (_assess_incident incident)) as H5.
  { rewrite assess_severity_score. fold base. rewrite int_clamp_raw by lia. lia. }
  split; [lia|].
  split; [unfold Qle; rewrite Hn, Hd; simpl; lia|].
  split.
  { unfold Qmax, GenericMinMax.gmax.
    replace (inject_Z 1 ?= raw_severity base (severity_indicators incident))%Q
      with Lt; [reflexivity|].
    symmetry. apply -> Qlt_alt. unfold Qlt. rewrite Hn, Hd. simpl. lia. }
  split; [exact H5|].
  rewrite assess_medical_priority, priority_of_int, <- assess_severity_score.
  unfold priority_band.
  destruct (8 <=? _); [discriminate|]. destruct (6 <=? _); [discriminate|].
  destruct (4 <=? _) eqn:H4; [discriminate|]. apply Z.leb_gt in H4. lia.
Qed.

(** ** Allocation table *)

Lemma unit_labels_length n : length (unit_labels n) = n.
Proof. unfold unit_labels. now rewrite length_map, length_seq. Qed.

Lemma unit_labels_lookup n i :
  (i < n)%nat -> unit_labels n !! i = Some ("Unit-" +:+ Str.of_nat i).
Proof.
  intros Hi. unfold unit_labels.
  rewrite list_lookup_fmap, lookup_seq_lt by exact Hi. reflexivity.
Qed.

(** What every branch of the table shares. *)
Lemma allocate_shape (assessment : IncidentAssessment) :
  let r := _allocate_resources assessment in
  dispatch_order r
  = unit_labels (Z.to_nat (ambulances_required r + fire_trucks_required r))
  /\ estimated_cost r
     = ambulances_required r * 500 + fire_trucks_required r * 1000
       + personnel_required r * 100
  /\ 1 <= ambulances_required r <= 2
  /\ 0 <= fire_trucks_required r <= 3.
Proof.
  unfold _allocate_resources.
  repeat match goal with
         | |- context [bool_decide ?P] => destruct (bool_decide P)
         | |- context [?a <=? ?b] => destruct (a <=? b)
         end; simpl; repeat split; lia.
Qed.

(** C4: a TRAUMA assessment of severity 8 gets 2 ambulances, 1 fire truck
    and 8 people, costs 2800 = 2*500 + 1*1000 + 8*100, and its dispatch
    order has 3 entries. *)
Theorem C4_trauma_severity_8 (assessment : IncidentAssessment) :
  incident_type assessment = "TRAUMA" ->
  severity_score assessment = 8 ->
  let r := _allocate_resources assessment in
  ambulances_required r = 2
  /\ fire_trucks_required r = 1
  /\ personnel_required r = 8
  /\ estimated_cost r = 2800
  /\ estimated_cost r
     = ambulances_required r * 500 + fire_trucks_required r * 1000
       + personnel_required r * 100
  /\ length (dispatch_order r) = 3%nat.
Proof.
  intros Ht Hs. unfold _allocate_resources. rewrite Ht, Hs.
  repeat split; reflexivity.
Qed.


(** C6: the dispatch order has exactly ambulances + fire trucks entries,
    and its entry at index i is the label "Unit-i": the labels Unit-0 to
    Unit-(n-1) in ascending order. *)
Theorem C6_dispatch_order_labels (assessment : IncidentAssessment) :
  let r := _allocate_resources assessment in
  let n := ambulances_required r + fire_trucks_required r in
  Z.of_nat (length (dispatch_order r)) = n
  /\ (forall i : nat,
        Z.of_nat i < n ->
        dispatch_order r !! i = Some ("Unit-" +:+ Str.of_nat i))
  /\ (forall i : nat, n <= Z.of_nat i -> dispatch_order r !! i = None).
Proof.
  intros r n.
  destruct (allocate_shape assessment) as (Hd & _ & Ha & Hf).
  fold r in Hd, Ha, Hf. fold n in Hd. rewrite Hd.
  split; [rewrite unit_labels_length; lia|]. split.
  - intros i Hi. apply unit_labels_lookup. lia.
  - intros i Hi. apply lookup_ge_None. rewrite unit_labels_length. lia.
Qed.


(** C10: every allocation has at least one ambulance, whatever the type
    and the severity of the assessment, so its dispatch order is not empty. *)
Theorem C10_at_least_one_ambulance (assessment : IncidentAssessment) :
  1 <= ambulances_required (_allocate_resources assessment)
  /\ dispatch_order (_allocate_resources assessment) <> []
  /\ (1 <= length (dispatch_order (_allocate_resources assessment)))%nat.
Proof.
  destruct (allocate_shape assessment) as (Hd & _ & Ha & Hf).
  assert (1 <= length (dispatch_order (_allocate_resources assessment)))%nat as Hl.
  { rewrite Hd, unit_labels_length. lia. }
  split; [lia|]. split; [|exact Hl].
  intros E. rewrite E in Hl. simpl in Hl. lia.
Qed.

(** ** The coordinator and its registry *)

Lemma process_registry self now incident :
  active_incidents (snd (process_emergency_call self now incident))
  = <[call_id incident :=
        {| e_incident := incident;
           e_assessment := _assess_incident incident;
           e_resources := _allocate_resources (_assess_incident incident);
           e_status := "DISPATCHED";
           e_timestamp := now |}]> (active_incidents self).
Proof. reflexivity. Qed.

Lemma update_present self id status e :
  active_incidents self !! id = Some e ->
  update_incident_status self id status
  = (true, with_active_incidents self
             (<[id := with_status e status]> (active_incidents self))).
Proof. intros H. unfold update_incident_status. now rewrite H. Qed.

Lemma update_absent self id status :
  active_incidents self !! id = None ->
  update_incident_status self id status = (false, self).
Proof. intros H. unfold update_incident_status. now rewrite H. Qed.

(** C5: the demonstration call "911-2024-001" with its chest-pain
    description and any three severity indicators is CARDIAC with raw
    severity 9.5, stored score 9 and priority CRITICAL; it is allocated 2
    ambulances, no fire truck and 6 people for 1600, with dispatch plan
    Unit-0, Unit-1; the response and the registry entry carry these values. *)
Theorem C5_end_to_end (self : EmergencyResponseCoordinator)
    (now ts loc : string) (indicators : list string) (contact : option string) :
  length indicators = 3%nat ->
  let incident :=
    {| call_id := "911-2024-001"; timestamp := ts; location := loc;
       description :=
         Str.of_string "Patient experiencing severe chest pain, unresponsive";
       severity_indicators := indicators; caller_contact := contact |} in
  let assessment := _assess_incident incident in
  let resources := _allocate_resources assessment in
  let result := process_emergency_call self now incident in
  incident_type assessment = "CARDIAC"
  /\ (raw_severity 8 indicators == 19 # 2)%Q
  /\ severity_score assessment = 9
  /\ medical_priority assessment = "CRITICAL"
  /\ ambulances_required resources = 2
  /\ fire_trucks_required resources = 0
  /\ personnel_required resources = 6
  /\ estimated_cost resources = 1600
  /\ dispatch_order resources = ["Unit-0"; "Unit-1"]
  /\ fst result
     = {| r_call_id := "911-2024-001"; r_incident_type := "CARDIAC";
          r_severity := 9; r_priority := "CRITICAL";
          r_dispatch_plan := ["Unit-0"; "Unit-1"];
          r_estimated_arrival := "5-8 minutes"; r_status := "DISPATCHED" |}
  /\ get_incident_status (snd result) "911-2024-001"
     = Some {| e_incident := incident; e_assessment := assessment;
               e_resources := resources; e_status := "DISPATCHED";
               e_timestamp := now |}.
Proof.
  intros Hlen.
  destruct indicators as [|a [|b [|c [|d rest]]]]; try discriminate Hlen.
  intros incident assessment resources result.
  repeat (split; [reflexivity|]).
  unfold get_incident_status, result. rewrite process_registry.
  apply lookup_insert_eq.
Qed.


(** C7: after a call is processed, looking its id up returns the composed
    entry (incident, assessment, resources) with status DISPATCHED; an update
    to "RESOLVED" then succeeds and the lookup shows "RESOLVED" with the rest
    of the entry unchanged; processing a call with the same id again
    replaces the entry by the new one, leaving one entry for that id. *)
Theorem C7_registry_round_trip (self : EmergencyResponseCoordinator)
    (now now' : string) (incident incident' : EmergencyIncident) :
  call_id incident' = call_id incident ->
  let id := call_id incident in
  let entry status :=
    {| e_incident := incident;
       e_assessment := _assess_incident incident;
       e_resources := _allocate_resources (_assess_incident incident);
       e_status := status; e_timestamp := now |} in
  let entry' :=
    {| e_incident := incident';
       e_assessment := _assess_incident incident';
       e_resources := _allocate_resources (_assess_incident incident');
       e_status := "DISPATCHED"; e_timestamp := now' |} in
  let self1 := snd (process_emergency_call self now incident) in
  let updated := update_incident_status self1 id "RESOLVED" in
  let self2 := snd updated in
  let self3 := snd (process_emergency_call self2 now' incident') in
  get_incident_status self1 id = Some (entry "DISPATCHED")
  /\ r_status (fst (process_emergency_call self now incident)) = "DISPATCHED"
  /\ fst updated = true
  /\ get_incident_status self2 id = Some (entry "RESOLVED")
  /\ get_incident_status self3 id = Some entry'
  /\ get_incident_status
       (snd (process_emergency_call self1 now' incident')) id = Some entry'
  /\ active_incidents self3 = <[id := entry']> (active_incidents self).
Proof.
  intros Hid id entry entry' self1 updated self2 self3.
  assert (active_incidents self1 !! id = Some (entry "DISPATCHED")) as H1.
  { unfold self1. rewrite process_registry. apply lookup_insert_eq. }
  assert (updated
          = (true, with_active_incidents self1
                     (<[id := entry "RESOLVED"]> (active_incidents self1)))) as Hu.
  { unfold updated. now rewrite (update_present _ _ _ _ H1). }
  split; [exact H1|]. split; [reflexivity|].
  split; [now rewrite Hu|].
  split.
  { unfold get_incident_status, self2. rewrite Hu. apply lookup_insert_eq. }
  split.
  { unfold get_incident_status, self3. rewrite process_registry, Hid.
    apply lookup_insert_eq. }
  split.
  { unfold get_incident_status. rewrite process_registry, Hid.
    apply lookup_insert_eq. }
  unfold self3. rewrite process_registry, Hid. fold id entry'.
  unfold self2. rewrite Hu. simpl. fold id.
  now rewrite !insert_insert_eq.
Qed.


(** C8: updating the status of a call id that is not in the registry
    returns false and leaves the coordinator as it was; for an id that is
    there, it returns true, sets the status of that entry to the given
    string, whatever it is, and changes nothing else: the other fields of
    the entry and all other entries stay. *)
Theorem C8_update_incident_status (self : EmergencyResponseCoordinator)
    (id status : string) :
  (active_incidents self !! id = None ->
   update_incident_status self id status = (false, self))
  /\ (forall e,
        active_incidents self !! id = Some e ->
        let self' := snd (update_incident_status self id status) in
        fst (update_incident_status self id status) = true
        /\ get_incident_status self' id
           = Some {| e_incident := e_incident e;
                     e_assessment := e_assessment e;
                     e_resources := e_resources e;
                     e_status := status;
                     e_timestamp := e_timestamp e |}
        /\ (forall other, other <> id ->
              get_incident_status self' other = get_incident_status self other)
        /\ dom (active_incidents self') = dom (active_incidents self)
        /\ project_id self' = project_id self
        /\ api_key self' = api_key self).
Proof.
  split; [apply update_absent|].
  intros e He self'. unfold self'.
  rewrite (update_present _ _ _ _ He). simpl.
  split; [reflexivity|].
  split; [apply lookup_insert_eq|].
  split.
  { intros other Hne. unfold get_incident_status. simpl.
    apply lookup_insert_ne. congruence. }
  split; [|split; reflexivity].
  apply dom_insert_lookup_L. now exists e.
Qed.


(** * Further properties *)

#[local] Set Warnings "-clear-no-such-hyp".

(** ** The registry under arbitrary sessions *)

Lemma step_registry_dom self c :
  dom (active_incidents (step self c))
  = dom (active_incidents self) ∪ processed_ids [c].
Proof.
  destruct c as [now incident|id status]; simpl.
  - rewrite dom_insert_L. set_solver.
  - unfold update_incident_status.
    destruct (active_incidents self !! id) as [e|] eqn:He; simpl.
    + rewrite dom_insert_lookup_L by (now exists e). set_solver.
    + set_solver.
Qed.

Lemma run_cons c calls self : run (c :: calls) self = run calls (step self c).
Proof. reflexivity. Qed.

Lemma run_registry_dom (calls : list Call) (self : EmergencyResponseCoordinator) :
  dom (active_incidents (run calls self))
  = dom (active_incidents self) ∪ processed_ids calls.
Proof.
  revert self. induction calls as [|c calls IH]; intros self.
  - simpl. set_solver.
  - rewrite run_cons, IH, step_registry_dom.
    destruct c; simpl; set_solver.
Qed.

(** X1: after any sequence of process and update calls, the registered
    call ids are those that were there at the start together with those the
    session processed: updates never add an id and nothing is ever removed.
    In a coordinator built by [__init__], a status lookup finds an entry, and
    a status update returns true, exactly for the ids that were processed. *)
Theorem registry_ids_after_run (calls : list Call)
    (self : EmergencyResponseCoordinator) (project : string)
    (key : option string) (id status : string) :
  dom (active_incidents (run calls self))
  = dom (active_incidents self) ∪ processed_ids calls
  /\ (is_Some (get_incident_status (run calls (__init__ project key)) id)
      <-> id ∈ processed_ids calls)
  /\ (fst (update_incident_status (run calls (__init__ project key)) id status)
      = true
      <-> id ∈ processed_ids calls).
Proof.
  split; [apply run_registry_dom|].
  assert (is_Some (active_incidents (run calls (__init__ project key)) !! id)
          <-> id ∈ processed_ids calls) as Hdom.
  { rewrite <- elem_of_dom, run_registry_dom. simpl. rewrite dom_empty_L.
    set_solver. }
  split; [exact Hdom|].
  rewrite <- Hdom. unfold update_incident_status.
  destruct (active_incidents (run calls (__init__ project key)) !! id);
    simpl; split; try done; intros []; discriminate.
Qed.


Lemma step_consistent self c :
  registry_consistent self -> registry_consistent (step self c).
Proof.
  intros Hinv id e. destruct c as [now incident|id' status]; simpl.
  - destruct (decide (call_id incident = id)) as [<-|Hne].
    + rewrite lookup_insert_eq. intros [= <-]. repeat split.
    + rewrite lookup_insert_ne by exact Hne. apply Hinv.
  - unfold update_incident_status.
    destruct (active_incidents self !! id') as [e'|] eqn:He'; simpl;
      [|apply Hinv].
    destruct (decide (id' = id)) as [<-|Hne].
    + rewrite lookup_insert_eq. intros [= <-]. exact (Hinv _ _ He').
    + rewrite lookup_insert_ne by exact Hne. apply Hinv.
Qed.

Lemma run_consistent calls self :
  registry_consistent self -> registry_consistent (run calls self).
Proof.
  revert self. induction calls as [|c calls IH]; intros self Hinv;
    [exact Hinv|].
  rewrite run_cons. apply IH, step_consistent, Hinv.
Qed.

Lemma assess_incident_id incident :
  incident_id (_assess_incident incident) = call_id incident.
Proof. unfold _assess_incident. now destruct (classify _). Qed.

Lemma allocate_allocation_id assessment :
  allocation_id (_allocate_resources assessment)
  = "ALLOC-" +:+ incident_id assessment.
Proof.
  unfold _allocate_resources.
  repeat match goal with
         | |- context [bool_decide ?P] => destruct (bool_decide P)
         end; reflexivity.
Qed.

(** X2: in a coordinator built by [__init__] and used through any sequence
    of process and update calls, every entry is stored under the call id of
    its own incident and carries the assessment and the allocation computed
    from that incident; its assessment and allocation ids are the call id
    and "ALLOC-" followed by the call id.  Status updates never break this. *)
Theorem registry_entries_consistent (project : string) (key : option string)
    (calls : list Call) (id : string) (e : Entry) :
  get_incident_status (run calls (__init__ project key)) id = Some e ->
  call_id (e_incident e) = id
  /\ e_assessment e = _assess_incident (e_incident e)
  /\ e_resources e = _allocate_resources (_assess_incident (e_incident e))
  /\ incident_id (e_assessment e) = id
  /\ allocation_id (e_resources e) = "ALLOC-" +:+ id.
Proof.
  intros He.
  assert (registry_consistent (run calls (__init__ project key))) as Hinv.
  { apply run_consistent. intros id' e' H. simpl in H.
    rewrite lookup_empty in H. discriminate H. }
  destruct (Hinv _ _ He) as (Hid & Ha & Hr).
  rewrite Hr, Ha, <- Hid.
  repeat split;
    [apply assess_incident_id
    |now rewrite allocate_allocation_id, assess_incident_id].
Qed.


(** X3: processing a call touches the registry at its own call id only: the
    entries of all other ids are as before, the registered ids grow by that
    id, the registry grows by one entry when the id is new and keeps its
    size when it is replaced, and the coordinator's settings stay. *)
Theorem process_emergency_call_frame (self : EmergencyResponseCoordinator)
    (now : string) (incident : EmergencyIncident) :
  let self' := snd (process_emergency_call self now incident) in
  (forall other, other <> call_id incident ->
     get_incident_status self' other = get_incident_status self other)
  /\ dom (active_incidents self')
     = {[call_id incident]} ∪ dom (active_incidents self)
  /\ (get_incident_status self (call_id incident) = None ->
      size (active_incidents self') = S (size (active_incidents self)))
  /\ (is_Some (get_incident_status self (call_id incident)) ->
      size (active_incidents self') = size (active_incidents self))
  /\ project_id self' = project_id self
  /\ api_key self' = api_key self.
Proof.
  intros self'. unfold self', get_incident_status.
  rewrite process_registry.
  split; [intros other Hne; apply lookup_insert_ne; congruence|].
  split; [apply dom_insert_L|].
  split; [apply map_size_insert_None|].
  split; [|split; reflexivity].
  intros [e He]. now apply map_size_insert_Some.
Qed.


(** The response is computed from the incident alone. *)
Lemma process_response self now incident :
  fst (process_emergency_call self now incident)
  = {| r_call_id := call_id incident;
       r_incident_type := incident_type (_assess_incident incident);
       r_severity := severity_score (_assess_incident incident);
       r_priority := medical_priority (_assess_incident incident);
       r_dispatch_plan :=
         dispatch_order (_allocate_resources (_assess_incident incident));
       r_estimated_arrival := "5-8 minutes";
       r_status := "DISPATCHED" |}.
Proof.
  unfold process_emergency_call, _assess_incident.
  destruct (classify _). reflexivity.
Qed.






(** X5: of two status updates of the same call id the second one wins:
    making both leaves the coordinator as the second alone would, and
    returns what the second alone would; repeating an update changes
    nothing. *)
Theorem update_incident_status_twice (self : EmergencyResponseCoordinator)
    (id status1 status2 : string) :
  update_incident_status
    (snd (update_incident_status self id status1)) id status2
  = update_incident_status self id status2.
Proof.
  destruct (active_incidents self !! id) as [e|] eqn:He.
  - rewrite (update_present self id status1 e He). simpl.
    rewrite (update_present self id status2 e He).
    erewrite update_present by (simpl; apply lookup_insert_eq).
    unfold with_active_incidents. simpl. now rewrite insert_insert_eq.
  - rewrite (update_absent self id status1 He). reflexivity.
Qed.

Lemma step_lookup_target (self : EmergencyResponseCoordinator) (c : Call)
    (now : string) :
  active_incidents (step self (at_time now c)) !! target c
  = stored (active_incidents self !! target c) now c.
Proof.
  destruct c as [now' incident|id status]; simpl.
  - apply lookup_insert_eq.
  - unfold update_incident_status.
    destruct (active_incidents self !! id) as [e|] eqn:He; simpl.
    + apply lookup_insert_eq.
    + exact He.
Qed.

Lemma step_lookup_other (self : EmergencyResponseCoordinator) (c : Call)
    (now id : string) :
  target c <> id ->
  active_incidents (step self (at_time now c)) !! id
  = active_incidents self !! id.
Proof.
  intros Hne. destruct c as [now' incident|id' status]; simpl in *.
  - now apply lookup_insert_ne.
  - unfold update_incident_status.
    destruct (active_incidents self !! id'); [|reflexivity].
    simpl. now apply lookup_insert_ne.
Qed.

Lemma step_settings (self : EmergencyResponseCoordinator) (c : Call) :
  project_id (step self c) = project_id self
  /\ api_key (step self c) = api_key self.
Proof.
  destruct c as [now incident|id status]; simpl; [now split|].
  unfold update_incident_status.
  now destruct (active_incidents self !! id).
Qed.

(** The entry a call leaves does not depend on the clock, its clock
    reading apart. *)
Lemma stored_untimed (old : option Entry) (c : Call) (now now' : string) :
  untimed <$> stored old now c = untimed <$> stored old now' c.
Proof. now destruct c. Qed.

(** The registry after two calls on different call ids. *)
Lemma two_steps_lookup (self : EmergencyResponseCoordinator) (c1 c2 : Call)
    (now1 now2 id : string) :
  target c1 <> target c2 ->
  active_incidents (step (step self (at_time now1 c1)) (at_time now2 c2)) !! id
  = if decide (target c1 = id)
    then stored (active_incidents self !! id) now1 c1
    else if decide (target c2 = id)
         then stored (active_incidents self !! id) now2 c2
         else active_incidents self !! id.
Proof.
  intros Hne.
  destruct (decide (target c1 = id)) as [<-|H1].
  - rewrite step_lookup_other by congruence. apply step_lookup_target.
  - destruct (decide (target c2 = id)) as [<-|H2].
    + rewrite step_lookup_target. now rewrite step_lookup_other.
    + now rewrite !step_lookup_other.
Qed.

Lemma coordinator_eq (a b : EmergencyResponseCoordinator) :
  project_id a = project_id b -> api_key a = api_key b ->
  active_incidents a = active_incidents b -> a = b.
Proof. destruct a, b. simpl. congruence. Qed.

(** X6: two calls that work on different call ids do not interfere.  Made
    at the clock readings [now1] then [now2] in either order, they leave the
    same settings and the same registry entries, the stored clock readings
    apart: the entry of a processed call carries the reading of the moment
    the call was made, which depends on the order.  When both readings are
    equal the two orders leave the same coordinator.  Whether a status
    update succeeds is not affected by a call on another id. *)
Theorem calls_on_distinct_ids_commute (self : EmergencyResponseCoordinator)
    (c1 c2 : Call) (now1 now2 : string) :
  target c1 <> target c2 ->
  let ab := step (step self (at_time now1 c1)) (at_time now2 c2) in
  let ba := step (step self (at_time now1 c2)) (at_time now2 c1) in
  (forall id, untimed <$> get_incident_status ab id
              = untimed <$> get_incident_status ba id)
  /\ project_id ab = project_id ba
  /\ api_key ab = api_key ba
  /\ (now1 = now2 -> ab = ba)
  /\ (forall now incident,
        c1 = Process now incident ->
        e_timestamp <$> get_incident_status ab (call_id incident) = Some now1
        /\ e_timestamp <$> get_incident_status ba (call_id incident) = Some now2)
  /\ (forall status,
        fst (update_incident_status (step self (at_time now1 c1))
               (target c2) status)
        = fst (update_incident_status self (target c2) status)).
Proof.
  intros Hne ab ba.
  assert (forall id,
            active_incidents ab !! id
            = if decide (target c1 = id)
              then stored (active_incidents self !! id) now1 c1
              else if decide (target c2 = id)
                   then stored (active_incidents self !! id) now2 c2
                   else active_incidents self !! id) as Hab.
  { intros id. now apply two_steps_lookup. }
  assert (forall id,
            active_incidents ba !! id
            = if decide (target c1 = id)
              then stored (active_incidents self !! id) now2 c1
              else if decide (target c2 = id)
                   then stored (active_incidents self !! id) now1 c2
                   else active_incidents self !! id) as Hba.
  { intros id. unfold ba. rewrite two_steps_lookup by congruence.
    destruct (decide (target c1 = id)) as [H1|H1];
      destruct (decide (target c2 = id)) as [H2|H2];
      try reflexivity.
    congruence. }
  assert (project_id ab = project_id ba /\ api_key ab = api_key ba)
    as [Hp Hk].
  { unfold ab, ba.
    destruct (step_settings (step self (at_time now1 c1)) (at_time now2 c2))
      as [-> ->].
    destruct (step_settings self (at_time now1 c1)) as [-> ->].
    destruct (step_settings (step self (at_time now1 c2)) (at_time now2 c1))
      as [-> ->].
    destruct (step_settings self (at_time now1 c2)) as [-> ->].
    now split. }
  split.
  { intros id. unfold get_incident_status. rewrite Hab, Hba.
    destruct (decide (target c1 = id)); [apply stored_untimed|].
    destruct (decide (target c2 = id)); [apply stored_untimed|reflexivity]. }
  split; [exact Hp|]. split; [exact Hk|]. split.
  { intros Hnow. apply coordinator_eq; [exact Hp | exact Hk|].
    apply map_eq. intros id. rewrite Hab, Hba, Hnow. reflexivity. }
  split.
  { intros now incident Hc. unfold get_incident_status.
    rewrite Hab, Hba. subst c1. simpl.
    rewrite !decide_True by reflexivity. now split. }
  intros status. unfold update_incident_status.
  rewrite step_lookup_other by exact Hne.
  now destruct (active_incidents self !! target c2).
Qed.

(** X7: the response to a call depends on the incident only, not on what
    the registry holds nor on the clock; its call id is the incident's, its
    status is "DISPATCHED", its arrival estimate is "5-8 minutes", and the
    entry stored for the call carries the same type, severity, priority and
    dispatch plan. *)
Theorem response_depends_on_incident_only
    (self self' : EmergencyResponseCoordinator) (now now' : string)
    (incident : EmergencyIncident) :
  fst (process_emergency_call self now incident)
  = fst (process_emergency_call self' now' incident)
  /\ r_call_id (fst (process_emergency_call self now incident))
     = call_id incident
  /\ r_status (fst (process_emergency_call self now incident)) = "DISPATCHED"
  /\ r_estimated_arrival (fst (process_emergency_call self now incident))
     = "5-8 minutes"
  /\ exists e,
       get_incident_status (snd (process_emergency_call self now incident))
         (call_id incident) = Some e
       /\ e_incident e = incident
       /\ e_timestamp e = now
       /\ e_status e = r_status (fst (process_emergency_call self now incident))
       /\ incident_type (e_assessment e)
          = r_incident_type (fst (process_emergency_call self now incident))
       /\ severity_score (e_assessment e)
          = r_severity (fst (process_emergency_call self now incident))
       /\ medical_priority (e_assessment e)
          = r_priority (fst (process_emergency_call self now incident))
       /\ dispatch_order (e_resources e)
          = r_dispatch_plan (fst (process_emergency_call self now incident)).
Proof.
  rewrite !process_response.
  repeat (split; [reflexivity|]).
  eexists. split.
  { unfold get_incident_status. rewrite process_registry.
    apply lookup_insert_eq. }
  repeat split.
Qed.

(** ** The assessment by incident type and indicator count *)

Lemma classify_cases d :
  classify d = ("CARDIAC", 8) \/ classify d = ("TRAUMA", 7)
  \/ classify d = ("FIRE", 8) \/ classify d = ("MEDICAL", 5).
Proof.
  unfold classify.
  repeat match goal with |- context [if ?b then _ else _] => destruct b end;
    auto.
Qed.

Lemma assess_score_closed incident :
  severity_score (_assess_incident incident)
  = Z.min 10 (snd (classify (Str.lower (description incident)))
              + Z.of_nat (length (severity_indicators incident)) / 2).
Proof.
  rewrite assess_severity_score. apply int_clamp_raw.
  pose proof (classify_base_bounds (Str.lower (description incident))). lia.
Qed.

Lemma assess_priority_band incident :
  medical_priority (_assess_incident incident)
  = priority_band (severity_score (_assess_incident incident)).
Proof.
  rewrite assess_medical_priority, assess_severity_score.
  apply priority_of_int.
Qed.

Lemma assess_recommended_response incident :
  recommended_response (_assess_incident incident)
  = "Deploy specialized " +:+ incident_type (_assess_incident incident)
    +:+ " response team".
Proof. unfold _assess_incident. now destruct (classify _). Qed.

(** Halving a count: the quotient and the count bound each other. *)
Lemma half_bounds (n : Z) : 2 * (n / 2) <= n < 2 * (n / 2) + 2.
Proof.
  pose proof (Z.div_mod n 2 ltac:(lia)).
  pose proof (Z.mod_pos_bound n 2 ltac:(lia)). lia.
Qed.

Ltac band_cases :=
  unfold priority_band;
  repeat match goal with
         | |- context [?a <=? ?b] =>
             let H := fresh in destruct (Z.leb_spec a b) as [H|H]
         | |- context [?a <? ?b] =>
             let H := fresh in destruct (Z.ltb_spec a b) as [H|H]
         end;
  try reflexivity; try lia.

(** X8: what an assessment holds is fixed by the incident type and the
    number n of severity indicators.  CARDIAC and FIRE: score
    min(10, 8 + n div 2), always CRITICAL.  TRAUMA: score min(10, 7 + n div 2),
    HIGH with fewer than 2 indicators and CRITICAL from 2 on.  MEDICAL: score
    min(10, 5 + n div 2), MEDIUM with fewer than 2 indicators, HIGH with 2 to
    5, CRITICAL from 6 on.  No other type is ever produced. *)
Theorem assessment_table (incident : EmergencyIncident) :
  let n := Z.of_nat (length (severity_indicators incident)) in
  let a := _assess_incident incident in
  (incident_type a = "CARDIAC" /\ severity_score a = Z.min 10 (8 + n / 2)
   /\ medical_priority a = "CRITICAL"
   /\ recommended_response a = "Deploy specialized CARDIAC response team")
  \/ (incident_type a = "TRAUMA" /\ severity_score a = Z.min 10 (7 + n / 2)
      /\ medical_priority a = (if n <? 2 then "HIGH" else "CRITICAL")
      /\ recommended_response a = "Deploy specialized TRAUMA response team")
  \/ (incident_type a = "FIRE" /\ severity_score a = Z.min 10 (8 + n / 2)
      /\ medical_priority a = "CRITICAL"
      /\ recommended_response a = "Deploy specialized FIRE response team")
  \/ (incident_type a = "MEDICAL" /\ severity_score a = Z.min 10 (5 + n / 2)
      /\ medical_priority a
         = (if n <? 2 then "MEDIUM" else if n <? 6 then "HIGH" else "CRITICAL")
      /\ recommended_response a = "Deploy specialized MEDICAL response team").
Proof.
  intros n a. subst a.
  pose proof (half_bounds n) as Hh.
  assert (0 <= n) as Hn by (unfold n; lia).
  rewrite assess_recommended_response, assess_priority_band,
    assess_score_closed, assess_incident_type.
  fold n.
  destruct (classify_cases (Str.lower (description incident)))
    as [-> | [-> | [-> | ->]]]; simpl fst; simpl snd.
  - left. repeat split. band_cases.
  - right; left. repeat split. band_cases.
  - right; right; left. repeat split. band_cases.
  - right; right; right. repeat split. band_cases.
Qed.

(** X9: with the same description, more severity indicators never lower
    the score; six indicators make any call CRITICAL and ten give any call
    the top score 10, whatever the description says. *)
Theorem severity_grows_with_indicators (incident1 incident2 : EmergencyIncident) :
  description incident1 = description incident2 ->
  (length (severity_indicators incident1)
   <= length (severity_indicators incident2))%nat ->
  incident_type (_assess_incident incident1)
  = incident_type (_assess_incident incident2)
  /\ severity_score (_assess_incident incident1)
     <= severity_score (_assess_incident incident2)
  /\ ((6 <= length (severity_indicators incident1))%nat ->
      medical_priority (_assess_incident incident1) = "CRITICAL")
  /\ ((10 <= length (severity_indicators incident1))%nat ->
      severity_score (_assess_incident incident1) = 10).
Proof.
  intros Hd Hlen.
  rewrite !assess_incident_type, assess_priority_band, !assess_score_closed, Hd.
  pose proof (classify_base_bounds (Str.lower (description incident2))) as Hb.
  pose proof (half_bounds (Z.of_nat (length (severity_indicators incident1)))).
  pose proof (half_bounds (Z.of_nat (length (severity_indicators incident2)))).
  split; [reflexivity|]. split; [lia|]. split.
  - intros H6. band_cases.
  - intros H10. lia.
Qed.


(** ** Letter case and short descriptions *)

(** X10: keywords are matched in any mix of small and capital ASCII
    letters, wherever they stand in the description and whatever surrounds
    them: such a spelling of a cardiac word gives CARDIAC, one of a trauma
    word gives CARDIAC or TRAUMA, and one of a fire word never gives
    MEDICAL. *)
Theorem keyword_matched_in_any_letter_case (incident : EmergencyIncident)
    (w v pre suf : text) :
  description incident = pre ++ v ++ suf ->
  spelling w v ->
  (w ∈ cardiac_words ->
   incident_type (_assess_incident incident) = "CARDIAC")
  /\ (w ∈ trauma_words ->
      incident_type (_assess_incident incident) = "CARDIAC"
      \/ incident_type (_assess_incident incident) = "TRAUMA")
  /\ (w ∈ fire_words ->
      incident_type (_assess_incident incident) <> "MEDICAL").
Proof.
  intros Hd Hs. rewrite assess_incident_type, Hd.
  pose proof (classify_first_match (Str.lower (pre ++ v ++ suf))) as Hfm.
  assert (forall words,
            w ∈ words -> words ⊆ cardiac_words ++ trauma_words ++ fire_words ->
            group_hit words (Str.lower (pre ++ v ++ suf))) as Hhit.
  { intros words Hw Hsub. exists w. split; [exact Hw|].
    apply spelled_occurs; [now apply Hsub | exact Hs]. }
  split; [|split]; intros Hw.
  - assert (group_hit cardiac_words (Str.lower (pre ++ v ++ suf))) as Hc.
    { apply Hhit; [exact Hw|]. intros x Hx. apply elem_of_app. now left. }
    inversion Hfm; tauto.
  - assert (group_hit trauma_words (Str.lower (pre ++ v ++ suf))) as Ht.
    { apply Hhit; [exact Hw|]. intros x Hx.
      apply elem_of_app. right. apply elem_of_app. now left. }
    inversion Hfm; tauto.
  - assert (group_hit fire_words (Str.lower (pre ++ v ++ suf))) as Hf.
    { apply Hhit; [exact Hw|]. intros x Hx.
      apply elem_of_app. right. apply elem_of_app. now right. }
    intros Hm. rewrite Hm in Hfm. inversion Hfm. tauto.
Qed.

Lemma contains_length (w s : text) :
  Str.contains w s = true -> (length w <= length s)%nat.
Proof.
  intros H. apply contains_spec in H. destruct H as (pre & suf & ->).
  rewrite !length_app. lia.
Qed.

Lemma any_in_length (words : list text) (s : text) (k : nat) :
  Forall (fun w => k <= length w)%nat words ->
  Str.any_in words s = true -> (k <= length s)%nat.
Proof.
  intros Hall H. unfold Str.any_in in H. apply existsb_exists in H.
  destruct H as (w & Hin & Hc). apply contains_length in Hc.
  rewrite Forall_forall in Hall. apply list_elem_of_In in Hin.
  specialize (Hall w Hin). simpl in Hall. lia.
Qed.

(** X11: every keyword has at least three characters, so a description
    whose lower-cased text has fewer than three characters is a MEDICAL call
    with base severity 5: score min(10, 5 + n div 2) for n indicators.  An
    ASCII description of fewer than three characters, the empty one
    included, is such a description. *)
Theorem short_description_is_medical (incident : EmergencyIncident) :
  (length (Str.lower (description incident)) < 3)%nat
  \/ (is_ascii (description incident)
      /\ (length (description incident) < 3)%nat) ->
  incident_type (_assess_incident incident) = "MEDICAL"
  /\ severity_score (_assess_incident incident)
     = Z.min 10 (5 + Z.of_nat (length (severity_indicators incident)) / 2).
Proof.
  intros Hshort.
  assert (length (Str.lower (description incident)) < 3)%nat as Hlen.
  { destruct Hshort as [H|[Ha H]]; [exact H|].
    now rewrite lower_ascii, length_map by exact Ha. }
  assert (forall words,
            Forall (fun w => 3 <= length w)%nat words ->
            Str.any_in words (Str.lower (description incident)) = false) as Hno.
  { intros words Hall.
    destruct (Str.any_in words _) eqn:H; [|reflexivity].
    apply (any_in_length _ _ 3 Hall) in H. lia. }
  assert (classify (Str.lower (description incident)) = ("MEDICAL", 5)) as Hc.
  { unfold classify.
    rewrite !Hno; [reflexivity| | |];
      repeat constructor. }
  rewrite assess_incident_type, assess_score_closed, Hc. now split.
Qed.

(** ** The allocation table *)

(** The counts of the three named rows and of the default row. *)
Lemma allocate_cardiac a :
  incident_type a = "CARDIAC" ->
  ambulances_required (_allocate_resources a) = 2
  /\ fire_trucks_required (_allocate_resources a) = 0
  /\ personnel_required (_allocate_resources a) = 6.
Proof. intros H. unfold _allocate_resources. rewrite H. now repeat split. Qed.

Lemma allocate_trauma a :
  incident_type a = "TRAUMA" ->
  ambulances_required (_allocate_resources a)
  = (if 7 <=? severity_score a then 2 else 1)
  /\ fire_trucks_required (_allocate_resources a)
     = (if 8 <=? severity_score a then 1 else 0)
  /\ personnel_required (_allocate_resources a)
     = (if 8 <=? severity_score a then 8 else 4).
Proof. intros H. unfold _allocate_resources. rewrite H. now repeat split. Qed.

Lemma allocate_fire a :
  incident_type a = "FIRE" ->
  ambulances_required (_allocate_resources a) = 2
  /\ fire_trucks_required (_allocate_resources a)
     = (if 8 <=? severity_score a then 3 else 2)
  /\ personnel_required (_allocate_resources a) = 12.
Proof. intros H. unfold _allocate_resources. rewrite H. now repeat split. Qed.

Lemma allocate_default a :
  incident_type a <> "CARDIAC" -> incident_type a <> "TRAUMA" ->
  incident_type a <> "FIRE" ->
  ambulances_required (_allocate_resources a) = 1
  /\ fire_trucks_required (_allocate_resources a) = 0
  /\ personnel_required (_allocate_resources a) = 2.
Proof.
  intros Hc Ht Hf. unfold _allocate_resources.
  rewrite !bool_decide_eq_false_2 by assumption. now repeat split.
Qed.

Lemma allocate_type_cases a :
  incident_type a = "CARDIAC" \/ incident_type a = "TRAUMA"
  \/ incident_type a = "FIRE"
  \/ (incident_type a <> "CARDIAC" /\ incident_type a <> "TRAUMA"
      /\ incident_type a <> "FIRE").
Proof.
  destruct (decide (incident_type a = "CARDIAC")); [tauto|].
  destruct (decide (incident_type a = "TRAUMA")); [tauto|].
  destruct (decide (incident_type a = "FIRE")); tauto.
Qed.

Lemma allocate_cost a :
  estimated_cost (_allocate_resources a)
  = ambulances_required (_allocate_resources a) * 500
    + fire_trucks_required (_allocate_resources a) * 1000
    + personnel_required (_allocate_resources a) * 100.
Proof. apply (allocate_shape a). Qed.

Lemma allocate_dispatch_order a :
  dispatch_order (_allocate_resources a)
  = unit_labels (Z.to_nat (ambulances_required (_allocate_resources a)
                           + fire_trucks_required (_allocate_resources a))).
Proof. apply (allocate_shape a). Qed.

Ltac leb_cases :=
  repeat match goal with
         | |- context [?a <=? ?b] =>
             let H := fresh in destruct (Z.leb_spec a b) as [H|H]
         | H : context [?a <=? ?b] |- _ =>
             let H' := fresh in destruct (Z.leb_spec a b) as [H'|H']
         | |- context [?a <? ?b] =>
             let H := fresh in destruct (Z.ltb_spec a b) as [H|H]
         end.

(** X12: whatever assessment it is given, also one with an unknown type or
    a severity outside 1..10, the allocation stays within the table: 1 or 2
    ambulances, at most 3 fire trucks, 2 to 12 people, a cost between 700
    and 5200, 1 to 5 dispatched units, and at least two people for every
    dispatched unit. *)
Theorem allocation_bounds (assessment : IncidentAssessment) :
  let r := _allocate_resources assessment in
  1 <= ambulances_required r <= 2
  /\ 0 <= fire_trucks_required r <= 3
  /\ 2 <= personnel_required r <= 12
  /\ 700 <= estimated_cost r <= 5200
  /\ (1 <= length (dispatch_order r) <= 5)%nat
  /\ 2 * (ambulances_required r + fire_trucks_required r)
     <= personnel_required r.
Proof.
  intros r. subst r.
  rewrite allocate_cost, allocate_dispatch_order, unit_labels_length.
  destruct (allocate_type_cases assessment) as [H|[H|[H|(Hc & Ht & Hf)]]].
  - destruct (allocate_cardiac _ H) as (-> & -> & ->). lia.
  - destruct (allocate_trauma _ H) as (-> & -> & ->). leb_cases; lia.
  - destruct (allocate_fire _ H) as (-> & -> & ->). leb_cases; lia.
  - destruct (allocate_default _ Hc Ht Hf) as (-> & -> & ->). lia.
Qed.

Lemma unit_labels_prefix n m : (n <= m)%nat -> unit_labels n `prefix_of` unit_labels m.
Proof.
  intros H. exists (map (fun i => "Unit-" +:+ Str.of_nat i) (seq n (m - n))).
  unfold unit_labels. rewrite <- map_app, <- seq_app. do 2 f_equal. lia.
Qed.

(** X13: for one incident type, a higher severity score never gets fewer
    resources: ambulances, fire trucks, personnel and cost do not decrease,
    and the dispatch order of the lower score is the beginning of that of
    the higher one. *)
Theorem allocation_grows_with_severity (a1 a2 : IncidentAssessment) :
  incident_type a1 = incident_type a2 ->
  severity_score a1 <= severity_score a2 ->
  let r1 := _allocate_resources a1 in
  let r2 := _allocate_resources a2 in
  ambulances_required r1 <= ambulances_required r2
  /\ fire_trucks_required r1 <= fire_trucks_required r2
  /\ personnel_required r1 <= personnel_required r2
  /\ estimated_cost r1 <= estimated_cost r2
  /\ dispatch_order r1 `prefix_of` dispatch_order r2.
Proof.
  intros Ht Hs r1 r2. subst r1 r2.
  rewrite !allocate_cost, !allocate_dispatch_order.
  assert (ambulances_required (_allocate_resources a1)
          <= ambulances_required (_allocate_resources a2)
          /\ fire_trucks_required (_allocate_resources a1)
             <= fire_trucks_required (_allocate_resources a2)
          /\ personnel_required (_allocate_resources a1)
             <= personnel_required (_allocate_resources a2)) as (Ha & Hf & Hp).
  { destruct (allocate_type_cases a1) as [H|[H|[H|(H1 & H2 & H3)]]].
    - destruct (allocate_cardiac _ H) as (-> & -> & ->).
      rewrite Ht in H. destruct (allocate_cardiac _ H) as (-> & -> & ->). lia.
    - destruct (allocate_trauma _ H) as (-> & -> & ->).
      rewrite Ht in H. destruct (allocate_trauma _ H) as (-> & -> & ->).
      leb_cases; lia.
    - destruct (allocate_fire _ H) as (-> & -> & ->).
      rewrite Ht in H. destruct (allocate_fire _ H) as (-> & -> & ->).
      leb_cases; lia.
    - destruct (allocate_default _ H1 H2 H3) as (-> & -> & ->).
      rewrite Ht in H1, H2, H3.
      destruct (allocate_default _ H1 H2 H3) as (-> & -> & ->). lia. }
  repeat split; try lia.
  apply unit_labels_prefix. lia.
Qed.


Lemma of_nat_inj i j : Str.of_nat i = Str.of_nat j -> i = j.
Proof.
  unfold Str.of_nat. intros H.
  apply DecimalNat.Unsigned.to_uint_inj.
  apply (f_equal NilEmpty.uint_of_string) in H.
  rewrite !NilEmpty.usu in H. now inversion H.
Qed.

Lemma unit_labels_NoDup n : NoDup (unit_labels n).
Proof.
  unfold unit_labels. apply NoDup_fmap_2_strong; [|apply NoDup_seq].
  intros i j _ _ H. apply of_nat_inj. now inversion H.
Qed.

(** X14: no label occurs twice in a dispatch order: the decimal rendering
    of the index tells the units apart. *)
Theorem dispatch_order_labels_distinct (assessment : IncidentAssessment) :
  NoDup (dispatch_order (_allocate_resources assessment)).
Proof. rewrite allocate_dispatch_order. apply unit_labels_NoDup. Qed.

(** ** Assessment and allocation together *)

(** X15: the allocation a processed call can get, by incident type and
    number n of indicators.  CARDIAC: 2 ambulances, 6 people, 1600, two
    units.  TRAUMA: always 2 ambulances; with fewer than 2 indicators no fire
    truck, 4 people, 1400, two units, and from 2 indicators on 1 fire truck,
    8 people, 2800, three units.  FIRE: always 2 ambulances, 3 fire trucks,
    12 people, 5200, five units.  MEDICAL: 1 ambulance, 2 people, 700, one
    unit.  The one-ambulance TRAUMA row and the two-truck FIRE row of the
    table are never reached from an incident. *)
Theorem allocation_of_processed_call (incident : EmergencyIncident) :
  let n := Z.of_nat (length (severity_indicators incident)) in
  let a := _assess_incident incident in
  let r := _allocate_resources a in
  (incident_type a = "CARDIAC"
   /\ ambulances_required r = 2 /\ fire_trucks_required r = 0
   /\ personnel_required r = 6 /\ estimated_cost r = 1600
   /\ dispatch_order r = ["Unit-0"; "Unit-1"])
  \/ (incident_type a = "TRAUMA"
      /\ ambulances_required r = 2
      /\ fire_trucks_required r = (if n <? 2 then 0 else 1)
      /\ personnel_required r = (if n <? 2 then 4 else 8)
      /\ estimated_cost r = (if n <? 2 then 1400 else 2800)
      /\ dispatch_order r
         = (if n <? 2 then ["Unit-0"; "Unit-1"]
            else ["Unit-0"; "Unit-1"; "Unit-2"]))
  \/ (incident_type a = "FIRE"
      /\ ambulances_required r = 2 /\ fire_trucks_required r = 3
      /\ personnel_required r = 12 /\ estimated_cost r = 5200
      /\ dispatch_order r = ["Unit-0"; "Unit-1"; "Unit-2"; "Unit-3"; "Unit-4"])
  \/ (incident_type a = "MEDICAL"
      /\ ambulances_required r = 1 /\ fire_trucks_required r = 0
      /\ personnel_required r = 2 /\ estimated_cost r = 700
      /\ dispatch_order r = ["Unit-0"]).
Proof.
  intros n a r. subst r.
  pose proof (half_bounds n) as Hh.
  assert (0 <= n) as Hn by (unfold n; lia).
  pose proof (assess_incident_type incident) as Ht.
  pose proof (assess_score_closed incident) as Hs.
  fold a n in Ht, Hs.
  rewrite allocate_cost, allocate_dispatch_order.
  destruct (classify_cases (Str.lower (description incident)))
    as [Hc | [Hc | [Hc | Hc]]]; rewrite Hc in Ht, Hs; simpl in Ht, Hs.
  - left. destruct (allocate_cardiac a Ht) as (-> & -> & ->). now repeat split.
  - right; left. destruct (allocate_trauma a Ht) as (-> & -> & ->).
    rewrite Hs. split; [exact Ht|].
    leb_cases; try lia; now repeat split.
  - right; right; left. destruct (allocate_fire a Ht) as (-> & -> & ->).
    rewrite Hs. split; [exact Ht|].
    leb_cases; try lia; now repeat split.
  - right; right; right.
    destruct (allocate_default a) as (-> & -> & ->);
      [rewrite Ht; discriminate ..|].
    now repeat split.
Qed.

(** X16: the allocation id is "ALLOC-" followed by the incident id, so it
    tells the incidents apart: two allocations carry the same id exactly
    when their assessments are of the same incident id. *)
Theorem allocation_id_identifies_incident (a1 a2 : IncidentAssessment) :
  allocation_id (_allocate_resources a1) = allocation_id (_allocate_resources a2)
  <-> incident_id a1 = incident_id a2.
Proof.
  rewrite !allocate_allocation_id. split.
  - apply (inj (String.app "ALLOC-")).
  - now intros ->.
Qed.


(** ** Dictionaries *)

Lemma map_VStr_inj l1 l2 : map VStr l1 = map VStr l2 -> l1 = l2.
Proof.
  revert l2. induction l1 as [|x l1 IH]; intros [|y l2] H;
    try discriminate H; [reflexivity|].
  inversion H. f_equal. now apply IH.
Qed.

(** X17: [to_dict] keeps every field: two incidents, two assessments or two
    allocations with the same dictionary are equal, and so are two registry
    entries whose stored dictionaries are equal. *)
Theorem to_dict_injective :
  (forall i1 i2,
     EmergencyIncident_to_dict i1 = EmergencyIncident_to_dict i2 -> i1 = i2)
  /\ (forall a1 a2,
        IncidentAssessment_to_dict a1 = IncidentAssessment_to_dict a2 -> a1 = a2)
  /\ (forall r1 r2,
        ResourceAllocation_to_dict r1 = ResourceAllocation_to_dict r2 -> r1 = r2)
  /\ (forall e1 e2, Entry_to_dict e1 = Entry_to_dict e2 -> e1 = e2).
Proof.
  assert (forall i1 i2,
            EmergencyIncident_to_dict i1 = EmergencyIncident_to_dict i2 ->
            i1 = i2) as Hi.
  { intros [c1 t1 l1 d1 s1 k1] [c2 t2 l2 d2 s2 k2] H.
    unfold EmergencyIncident_to_dict in H. simpl in H.
    inversion H as [[Hc Ht Hl Hd Hs Hk]].
    apply map_VStr_inj in Hs. subst.
    f_equal. destruct k1, k2; congruence. }
  assert (forall a1 a2,
            IncidentAssessment_to_dict a1 = IncidentAssessment_to_dict a2 ->
            a1 = a2) as Ha.
  { intros [] [] H. inversion H. reflexivity. }
  assert (forall r1 r2,
            ResourceAllocation_to_dict r1 = ResourceAllocation_to_dict r2 ->
            r1 = r2) as Hr.
  { intros [i1 a1 f1 p1 c1 d1] [i2 a2 f2 p2 c2 d2] H.
    unfold ResourceAllocation_to_dict in H. simpl in H.
    inversion H as [[Hid Hamb Hft Hp Hc Hd]].
    apply map_VStr_inj in Hd. now subst. }
  repeat split; try assumption.
  intros [i1 a1 r1 s1 t1] [i2 a2 r2 s2 t2] H.
  unfold Entry_to_dict in H.
  cbn [e_incident e_assessment e_resources e_status e_timestamp] in H.
  injection H. intros. subst.
  f_equal;
    [apply Hi; unfold EmergencyIncident_to_dict
    |apply Ha; unfold IncidentAssessment_to_dict
    |apply Hr; unfold ResourceAllocation_to_dict]; congruence.
Qed.

End Properties.

(** * The properties on sample calls *)

#[local] Existing Instance sample_unicode_data.

(** The concrete case of C2, with the fire word first as well. *)
Lemma C2_witness :
  incident_type (_assess_incident
    {| call_id := "c"; timestamp := ""; location := "";
       description := Str.of_string "cardiac event during a fire";
       severity_indicators := []; caller_contact := None |}) = "CARDIAC"
  /\ incident_type (_assess_incident
    {| call_id := "c"; timestamp := ""; location := "";
       description := Str.of_string "Fire, then a suspected heart attack";
       severity_indicators := []; caller_contact := None |}) = "CARDIAC".
Proof.
  split.
  - apply C2_first_match_wins. reflexivity.
  - eapply (proj1 (proj2 (C2_first_match_wins _))
              (Str.of_string "heart")
              (Str.of_string "Fire, then a suspected ")
              (Str.of_string " attack")).
    + unfold cardiac_words. simpl. rewrite !elem_of_cons. auto.
    + reflexivity.
Defined.

(** Lower-casing follows the character database: with the Kelvin sign
    U+212A for the K, "SMOKE in the hall" is still a fire. *)
Example kelvin_sign_smoke :
  let a := _assess_incident
    {| call_id := "c"; timestamp := ""; location := "";
       description := [83; 77; 79; 0x212A; 69]%N ++ Str.of_string " in the hall";
       severity_indicators := []; caller_contact := None |} in
  Str.lower ([83; 77; 79; 0x212A; 69]%N ++ Str.of_string " in the hall")
  = Str.of_string "smoke in the hall"
  /\ incident_type a = "FIRE" /\ severity_score a = 8
  /\ medical_priority a = "CRITICAL".
Proof. repeat split. Qed.

(** The capital sigma in context: final after a cased character at the end
    of a word, medial elsewhere; the dotted capital I becomes two
    characters. *)
Example sigma_in_context :
  Str.lower [0x391; 0x3A3; 0x391; 0x3A3; 0x2E; 0x20; 0x3A3; 0x130]%N
  = [0x3B1; 0x3C3; 0x3B1; 0x3C2; 0x2E; 0x20; 0x3C3; 0x69; 0x307]%N.
Proof. reflexivity. Qed.

Lemma C4_witness :
  let r := _allocate_resources
             {| incident_id := "911-2024-002"; incident_type := "TRAUMA";
                severity_score := 8; medical_priority := "CRITICAL";
                recommended_response := "Deploy specialized TRAUMA response team";
                estimated_arrival_time := "5-8 minutes" |} in
  ambulances_required r = 2
  /\ fire_trucks_required r = 1
  /\ personnel_required r = 8
  /\ estimated_cost r = 2800
  /\ estimated_cost r
     = ambulances_required r * 500 + fire_trucks_required r * 1000
       + personnel_required r * 100
  /\ length (dispatch_order r) = 3%nat.
Proof. apply C4_trauma_severity_8; reflexivity. Defined.

Lemma C6_witness :
  let r := _allocate_resources
             {| incident_id := "k"; incident_type := "FIRE";
                severity_score := 9; medical_priority := "CRITICAL";
                recommended_response := ""; estimated_arrival_time := "" |} in
  Z.of_nat (length (dispatch_order r)) = 5
  /\ dispatch_order r !! 4%nat = Some "Unit-4"
  /\ dispatch_order r !! 5%nat = None.
Proof.
  intros r.
  destruct (C6_dispatch_order_labels
              {| incident_id := "k"; incident_type := "FIRE";
                 severity_score := 9; medical_priority := "CRITICAL";
                 recommended_response := ""; estimated_arrival_time := "" |})
    as (Hlen & Hin & Hout).
  split; [exact Hlen|]. split.
  - apply (Hin 4%nat). vm_compute. reflexivity.
  - apply (Hout 5%nat). vm_compute. discriminate.
Defined.

Lemma C5_witness :
  let a := _assess_incident (cardiac_incident "2024-01-01T00:00:00") in
  incident_type a = "CARDIAC" /\ severity_score a = 9
  /\ medical_priority a = "CRITICAL"
  /\ estimated_cost (_allocate_resources a) = 1600
  /\ dispatch_order (_allocate_resources a) = ["Unit-0"; "Unit-1"].
Proof.
  destruct (C5_end_to_end (__init__ "emergency-response" None)
              "2024-01-01T00:00:01" "2024-01-01T00:00:00"
              "123 Main St, Hospital District"
              ["chest pain"; "shortness of breath"; "unresponsive"]
              (Some "555-0123") eq_refl)
    as (Ht & _ & Hs & Hp & _ & _ & _ & Hc & Hd & _).
  exact (conj Ht (conj Hs (conj Hp (conj Hc Hd)))).
Defined.

Lemma C7_witness :
  let self1 :=
    snd (process_emergency_call (__init__ "emergency-response" None)
           "t0" (cardiac_incident "t0")) in
  let self2 := snd (update_incident_status self1 "911-2024-001" "RESOLVED") in
  e_status <$> get_incident_status self1 "911-2024-001" = Some "DISPATCHED"
  /\ e_status <$> get_incident_status self2 "911-2024-001" = Some "RESOLVED"
  /\ e_timestamp <$> get_incident_status
       (snd (process_emergency_call self2 "t1" (cardiac_incident "t1")))
       "911-2024-001" = Some "t1".
Proof.
  intros self1 self2.
  destruct (C7_registry_round_trip (__init__ "emergency-response" None)
              "t0" "t1" (cardiac_incident "t0") (cardiac_incident "t1") eq_refl)
    as (H1 & _ & _ & H2 & H3 & _).
  split; [exact (f_equal (fmap e_status) H1)|].
  split; [exact (f_equal (fmap e_status) H2)|].
  exact (f_equal (fmap e_timestamp) H3).
Defined.

Lemma C8_witness :
  let empty := __init__ "emergency-response" None in
  let self1 := snd (process_emergency_call empty "t0" (cardiac_incident "t0")) in
  update_incident_status empty "911-2024-001" "RESOLVED" = (false, empty)
  /\ fst (update_incident_status self1 "911-2024-001" "no such status") = true
  /\ e_status <$> get_incident_status
       (snd (update_incident_status self1 "911-2024-001" "no such status"))
       "911-2024-001" = Some "no such status".
Proof.
  intros empty self1.
  destruct (C8_update_incident_status empty "911-2024-001" "RESOLVED")
    as [Habsent _].
  destruct (C8_update_incident_status self1 "911-2024-001" "no such status")
    as [_ Hpresent].
  split; [apply Habsent, lookup_empty|].
  destruct (Hpresent _ (lookup_insert_eq _ _ _)) as (Hok & Hget & _).
  split; [exact Hok | exact (f_equal (fmap e_status) Hget)].
Defined.

Lemma registry_ids_after_run_witness :
  let calls := [Update "911-2024-001" "RESOLVED";
                Process "t0" (cardiac_incident "t0")] in
  let self := run calls (__init__ "emergency-response" None) in
  is_Some (get_incident_status self "911-2024-001")
  /\ fst (update_incident_status self "911-2024-001" "ON_SCENE") = true.
Proof.
  intros calls self.
  destruct (registry_ids_after_run calls (__init__ "emergency-response" None)
              "emergency-response" None "911-2024-001" "ON_SCENE")
    as (_ & Hget & Hupd).
  assert ("911-2024-001" ∈ processed_ids calls) as Hin.
  { simpl. apply elem_of_union_l, elem_of_singleton. reflexivity. }
  split; [apply Hget, Hin | apply Hupd, Hin].
Defined.

Lemma registry_entries_consistent_witness :
  exists e,
    get_incident_status
      (run [Process "t0" (cardiac_incident "t0");
            Update "911-2024-001" "EN_ROUTE"]
           (__init__ "emergency-response" None)) "911-2024-001" = Some e
    /\ e_status e = "EN_ROUTE"
    /\ allocation_id (e_resources e) = "ALLOC-911-2024-001".
Proof.
  eexists. split; [|split].
  - unfold run, get_incident_status. simpl.
    unfold update_incident_status. simpl. rewrite lookup_insert_eq. simpl.
    apply lookup_insert_eq.
  - reflexivity.
  - eapply (registry_entries_consistent "emergency-response" None
              [Process "t0" (cardiac_incident "t0");
               Update "911-2024-001" "EN_ROUTE"] "911-2024-001").
    unfold run, get_incident_status. simpl.
    unfold update_incident_status. simpl. rewrite lookup_insert_eq. simpl.
    apply lookup_insert_eq.
Defined.

Lemma process_emergency_call_frame_witness :
  let self0 := __init__ "emergency-response" None in
  let self1 := snd (process_emergency_call self0 "t0" (cardiac_incident "t0")) in
  let self2 := snd (process_emergency_call self1 "t1" (cardiac_incident "t1")) in
  get_incident_status self1 "911-2024-002" = None
  /\ size (active_incidents self1) = 1%nat
  /\ size (active_incidents self2) = 1%nat.
Proof.
  intros self0 self1 self2.
  destruct (process_emergency_call_frame self0 "t0" (cardiac_incident "t0"))
    as (Hother & _ & Hnew & _).
  destruct (process_emergency_call_frame self1 "t1" (cardiac_incident "t1"))
    as (_ & _ & _ & Hold & _).
  assert (size (active_incidents self1) = 1%nat) as H1.
  { unfold self1. rewrite Hnew by apply lookup_empty. reflexivity. }
  split; [|split; [exact H1|]].
  - unfold self1. rewrite Hother by discriminate. apply lookup_empty.
  - unfold self2. rewrite Hold; [exact H1|].
    eexists. apply lookup_insert_eq.
Defined.


Lemma calls_on_distinct_ids_commute_witness :
  let self := __init__ "emergency-response" None in
  let first :=
    {| call_id := "911-2024-001"; timestamp := "t"; location := "";
       description := Str.of_string "kitchen fire";
       severity_indicators := []; caller_contact := None |} in
  let second :=
    {| call_id := "911-2024-002"; timestamp := "t"; location := "";
       description := Str.of_string "car crash";
       severity_indicators := ["bleeding"]; caller_contact := None |} in
  let ab := step (step self (Process "10:00" first)) (Process "10:05" second) in
  let ba := step (step self (Process "10:00" second)) (Process "10:05" first) in
  untimed <$> get_incident_status ab "911-2024-001"
  = untimed <$> get_incident_status ba "911-2024-001"
  /\ e_timestamp <$> get_incident_status ab "911-2024-001" = Some "10:00"
  /\ e_timestamp <$> get_incident_status ba "911-2024-001" = Some "10:05".
Proof.
  intros self first second ab ba.
  destruct (calls_on_distinct_ids_commute self
              (Process "" first) (Process "" second) "10:00" "10:05")
    as (Hsame & _ & _ & _ & Htime & _).
  { simpl. discriminate. }
  split; [exact (Hsame "911-2024-001")|].
  exact (Htime "" first eq_refl).
Defined.

Lemma severity_grows_with_indicators_witness :
  let quiet :=
    {| call_id := "a"; timestamp := ""; location := "";
       description := Str.of_string "feeling dizzy";
       severity_indicators := ["1"; "2"; "3"; "4"; "5"; "6"];
       caller_contact := None |} in
  let loud :=
    {| call_id := "b"; timestamp := ""; location := "";
       description := Str.of_string "feeling dizzy";
       severity_indicators := ["1"; "2"; "3"; "4"; "5"; "6"; "7"; "8"; "9"; "10"];
       caller_contact := None |} in
  severity_score (_assess_incident quiet) <= severity_score (_assess_incident loud)
  /\ medical_priority (_assess_incident quiet) = "CRITICAL"
  /\ severity_score (_assess_incident loud) = 10.
Proof.
  intros quiet loud.
  destruct (severity_grows_with_indicators quiet loud eq_refl) as (_ & H1 & H2 & _).
  { simpl. lia. }
  destruct (severity_grows_with_indicators loud loud eq_refl) as (_ & _ & _ & H3).
  { simpl. lia. }
  split; [exact H1|]. split; [apply H2; simpl; lia | apply H3; simpl; lia].
Defined.

Lemma keyword_matched_in_any_letter_case_witness :
  incident_type (_assess_incident
    {| call_id := "c"; timestamp := ""; location := "";
       description := Str.of_string "Severe CHEST Pain since noon";
       severity_indicators := []; caller_contact := None |}) = "CARDIAC".
Proof.
  apply (keyword_matched_in_any_letter_case _
           (Str.of_string "chest pain") (Str.of_string "CHEST Pain")
           (Str.of_string "Severe ") (Str.of_string " since noon")).
  - reflexivity.
  - unfold spelling, Str.of_string. simpl.
    repeat (constructor;
            [first [left; reflexivity
                   |right; split; [lia | split; [lia | reflexivity]]]|]).
    constructor.
  - unfold cardiac_words. simpl. rewrite !elem_of_cons. auto.
Defined.

Lemma short_description_is_medical_witness :
  incident_type (_assess_incident
    {| call_id := "c"; timestamp := ""; location := "";
       description := Str.of_string "ok";
       severity_indicators := []; caller_contact := None |}) = "MEDICAL"
  /\ incident_type (_assess_incident
    {| call_id := "c"; timestamp := ""; location := ""; description := [];
       severity_indicators := []; caller_contact := None |}) = "MEDICAL".
Proof.
  split.
  - apply (short_description_is_medical
      {| call_id := "c"; timestamp := ""; location := "";
         description := Str.of_string "ok";
         severity_indicators := []; caller_contact := None |}).
    right. split; [|simpl; lia].
    unfold is_ascii. simpl. repeat constructor.
  - apply (short_description_is_medical
      {| call_id := "c"; timestamp := ""; location := ""; description := [];
         severity_indicators := []; caller_contact := None |}).
    left. simpl. lia.
Defined.

Lemma allocation_grows_with_severity_witness :
  let a s :=
    {| incident_id := "k"; incident_type := "TRAUMA"; severity_score := s;
       medical_priority := "HIGH"; recommended_response := "";
       estimated_arrival_time := "" |} in
  estimated_cost (_allocate_resources (a 6))
  <= estimated_cost (_allocate_resources (a 8))
  /\ dispatch_order (_allocate_resources (a 6))
     `prefix_of` dispatch_order (_allocate_resources (a 8)).
Proof.
  intros a.
  destruct (allocation_grows_with_severity (a 6) (a 8) eq_refl)
    as (_ & _ & _ & Hc & Hd).
  { simpl. lia. }
  exact (conj Hc Hd).
Defined.

Lemma allocation_id_identifies_incident_witness :
  allocation_id (_allocate_resources
    {| incident_id := "911-2024-001"; incident_type := "FIRE";
       severity_score := 8; medical_priority := "CRITICAL";
       recommended_response := ""; estimated_arrival_time := "" |})
  = allocation_id (_allocate_resources
    {| incident_id := "911-2024-001"; incident_type := "sprain";
       severity_score := 2; medical_priority := "LOW";
       recommended_response := ""; estimated_arrival_time := "" |}).
Proof.
  apply (allocation_id_identifies_incident
    {| incident_id := "911-2024-001"; incident_type := "FIRE";
       severity_score := 8; medical_priority := "CRITICAL";
       recommended_response := ""; estimated_arrival_time := "" |}
    {| incident_id := "911-2024-001"; incident_type := "sprain";
       severity_score := 2; medical_priority := "LOW";
       recommended_response := ""; estimated_arrival_time := "" |}).
  reflexivity.
Defined.

Lemma to_dict_injective_witness :
  cardiac_incident "t0"
  = {| call_id := "911-2024-001"; timestamp := "t0";
       location := "123 Main St, Hospital District";
       description :=
         Str.of_string "Patient experiencing severe chest pain, unresponsive";
       severity_indicators :=
         ["chest pain"; "shortness of breath"; "unresponsive"];
       caller_contact := Some "555-0123" |}.
Proof. apply (proj1 to_dict_injective). reflexivity. Defined.

